(** * slim / latex-editor: the compile pipeline and the inline math preview

    A shallow embedding of the TypeScript sources of the editor:

    - [Segmenter]: [processLatex] of the inline-preview editor, that is the
      [mathRegex] scan that splits the source into text and math parts and
      the HTML assembly that follows it;
    - [DocumentService]: the [localStorage]-backed document store
      ([getDocuments], [saveDocument]);
    - [CompileRoute]: the [POST] handler of the compile endpoint, over an
      explicit file system and a trace of the effects it performs;
    - [PdfEditor]: [compileLatex] of the stand-alone editor
      (app/components/Editor.tsx);
    - [DocumentEditor]: [saveCurrentDocument] and [compileLatex] of the
      document-aware editor.

    JavaScript strings are modelled as [string]; every delimiter the code
    looks at is an ASCII character, and text outside ASCII stands in its
    UTF-8 bytes, the form in which it is sent and written to disk.
    Exceptions are modelled with the [result] type below, [try]/[catch]
    as a match on it. *)

From Stdlib Require Import String Ascii List Bool Arith ZArith NArith Lia.
From stdpp Require Import base option gmap strings pretty.
Import ListNotations.

Local Open Scope string_scope.

(* stdpp freezes [String.append] under [simpl]; the proofs below compute
   with it. *)
#[local] Arguments String.append !s1 s2 : simpl nomatch.

(** ** Results of code that can throw *)

Inductive result (A : Type) : Type :=
| Ok (a : A)
| Throw (message : string).
Arguments Ok {A} a.
Arguments Throw {A} message.

(** ** String helpers shared by the modules *)

(** [strip_prefix lit s] is [Some r] when [s = lit ++ r]: a literal at the
    head of a regular expression, or [startsWith]. *)
Fixpoint strip_prefix (lit s : string) : option string :=
  match lit, s with
  | EmptyString, _ => Some s
  | String a lit', String b s' =>
      if Ascii.eqb a b then strip_prefix lit' s' else None
  | String _ _, EmptyString => None
  end.

(** [strip_suffix lit s] is [Some r] when [s = r ++ lit]: a literal
    anchored with [$] at the end of a regular expression. *)
Fixpoint strip_suffix (lit s : string) : option string :=
  if String.eqb s lit then Some EmptyString
  else match s with
       | EmptyString => None
       | String c s' => option_map (String c) (strip_suffix lit s')
       end.

(** [span p s]: the longest prefix of [s] whose characters satisfy [p],
    and what follows it. *)
Fixpoint span (p : ascii -> bool) (s : string) : string * string :=
  match s with
  | EmptyString => (EmptyString, EmptyString)
  | String c s' =>
      if p c then let '(a, b) := span p s' in (String c a, b)
      else (EmptyString, s)
  end.

(** [replace_all c by s] is [s.replace(/c/g, by)] for a one-character
    pattern [c]. *)
Fixpoint replace_all (c : ascii) (by_ : string) (s : string) : string :=
  match s with
  | EmptyString => EmptyString
  | String a s' =>
      if Ascii.eqb a c then by_ ++ replace_all c by_ s'
      else String a (replace_all c by_ s')
  end.

(** Whether a character occurs in a string. *)
Fixpoint occurs (c : ascii) (s : string) : bool :=
  match s with
  | EmptyString => false
  | String a s' => Ascii.eqb a c || occurs c s'
  end.

Definition is_empty (s : string) : bool :=
  match s with EmptyString => true | String _ _ => false end.

(** [all_chars p s]: every character of [s] satisfies [p]. *)
Fixpoint all_chars (p : ascii -> bool) (s : string) : bool :=
  match s with
  | EmptyString => true
  | String c s' => p c && all_chars p s'
  end.

(** The last character of a string. *)
Fixpoint last_char (s : string) : option ascii :=
  match s with
  | EmptyString => None
  | String c EmptyString => Some c
  | String _ s' => last_char s'
  end.

(** ** The text/math segmenter of the inline preview *)

Module Segmenter.

Definition dollar : ascii := "$".
Definition newline : ascii := "010".

Inductive PartType := text | math.

(** [interface MathPart { type: 'text' | 'math'; content: string }] *)
Record MathPart := { type : PartType; content : string }.

Definition not_dollar (c : ascii) : bool := negb (Ascii.eqb c dollar).
Definition not_dollar_nl (c : ascii) : bool :=
  negb (Ascii.eqb c dollar) && negb (Ascii.eqb c newline).

(** The lazy [[^]*?] followed by the literal [close]: the body ends at
    the first place where [close] occurs. *)
Fixpoint until_lit (close s : string) : option (string * string) :=
  match strip_prefix close s with
  | Some r => Some (EmptyString, r)
  | None =>
      match s with
      | EmptyString => None
      | String c s' =>
          match until_lit close s' with
          | Some (body, r) => Some (String c body, r)
          | None => None
          end
      end
  end.

(** The four alternatives of
    [/(\$\$[^$]*\$\$|\\\[[^]*?\\\]|\\\([^]*?\\\)|\$[^$\n]+?\$)/g],
    each tried at the head of [s]; the result is the matched text and the
    rest of the input. *)

(** [\$\$[^$]*\$\$]: the body cannot hold a dollar, so the greedy star
    stops at the first one and the closing pair has to stand there. *)
Definition alt_display_dollar (s : string) : option (string * string) :=
  match strip_prefix "$$" s with
  | Some s1 =>
      let '(body, s2) := span not_dollar s1 in
      match strip_prefix "$$" s2 with
      | Some rest => Some ("$$" ++ body ++ "$$", rest)
      | None => None
      end
  | None => None
  end.

(** [\\\[[^]*?\\\]] and [\\\([^]*?\\\)]. *)
Definition alt_bracketed (open close : string) (s : string)
  : option (string * string) :=
  match strip_prefix open s with
  | Some s1 =>
      match until_lit close s1 with
      | Some (body, rest) => Some (open ++ body ++ close, rest)
      | None => None
      end
  | None => None
  end.

(** [\$[^$\n]+?\$]: at least one character, none of them a dollar or a
    line break, then the closing dollar. *)
Definition alt_inline_dollar (s : string) : option (string * string) :=
  match strip_prefix "$" s with
  | Some s1 =>
      let '(body, s2) := span not_dollar_nl s1 in
      if is_empty body then None
      else match strip_prefix "$" s2 with
           | Some rest => Some ("$" ++ body ++ "$", rest)
           | None => None
           end
  | None => None
  end.

Definition or_else {A} (a b : option A) : option A :=
  match a with Some _ => a | None => b end.

(** The alternation, in the order of the pattern. *)
Definition match_at (s : string) : option (string * string) :=
  or_else (alt_display_dollar s)
    (or_else (alt_bracketed "\[" "\]" s)
       (or_else (alt_bracketed "\(" "\)" s)
          (alt_inline_dollar s))).

(** [mathRegex.exec(code)] with [s] the input from [mathRegex.lastIndex]
    on: the leftmost position where the pattern matches.  The result is
    the text skipped before the match ([code.slice(lastIndex, match.index)]),
    the match ([match[0]]) and the input after it. *)
Fixpoint exec (s : string) : option (string * string * string) :=
  match match_at s with
  | Some (m, rest) => Some (EmptyString, m, rest)
  | None =>
      match s with
      | EmptyString => None
      | String c s' =>
          match exec s' with
          | Some (skipped, m, rest) => Some (String c skipped, m, rest)
          | None => None
          end
      end
  end.

(** The [while ((match = mathRegex.exec(code)) !== null)] loop and the
    trailing-text test after it; [s] is the input from [lastIndex] on. *)
Fixpoint split_loop (fuel : nat) (s : string) : list MathPart :=
  match fuel with
  | O => []
  | S fuel' =>
      match exec s with
      | Some (skipped, m, rest) =>
          (if is_empty skipped then []
           else [{| type := text; content := skipped |}])
          ++ {| type := math; content := m |} :: split_loop fuel' rest
      | None =>
          if is_empty s then [] else [{| type := text; content := s |}]
      end
  end.

(** The [parts] array of [processLatex].  Every match is at least three
    characters long, so the loop runs at most [length code] times. *)
Definition parts (code : string) : list MathPart :=
  split_loop (S (String.length code)) code.

(** Concatenation of the [content] fields, in output order. *)
Definition joined (ps : list MathPart) : string :=
  fold_right (fun p acc => content p ++ acc) EmptyString ps.

(** *** HTML assembly *)

(** The part of the KaTeX module that [processLatex] uses:
    [renderToString(mathContent, { throwOnError: false, displayMode })],
    absent when the loaded module has no such property. *)
Record Katex := { renderToString : option (string -> bool -> result string) }.

(** The four chained [replace] calls applied to a text part. *)
Definition escape_text (s : string) : string :=
  replace_all newline "<br>"
    (replace_all ">" "&gt;"
       (replace_all "<" "&lt;"
          (replace_all "&" "&amp;" s))).

(** [s.replace(/^open|close$/g, '')]: the opening literal is removed at
    the start, the closing one at the end of what is left. *)
Definition strip_ends (open close s : string) : string :=
  let s1 := match strip_prefix open s with Some r => r | None => s end in
  match strip_suffix close s1 with Some r => r | None => s1 end.

Definition mathContent (c : string) : string :=
  strip_ends "\(" "\)" (strip_ends "\[" "\]" (strip_ends "$$" "$$" c)).

Definition starts_with (lit s : string) : bool :=
  match strip_prefix lit s with Some _ => true | None => false end.

Definition displayMode (c : string) : bool :=
  starts_with "$$" c || starts_with "\[" c.

Definition dquote : string := String "034" EmptyString.

Definition render_error (message : string) : string :=
  "<span class=" ++ dquote ++ "text-red-500" ++ dquote
  ++ ">Error rendering math: " ++ message ++ "</span>".

(** The body of [for (const part of parts)]: what one part adds to
    [html]. *)
Definition render_part (katex : Katex) (p : MathPart) : string :=
  match type p with
  | text => escape_text (content p)
  | math =>
      let mc := mathContent (content p) in
      let dm := displayMode (content p) in
      match renderToString katex with
      | Some render =>
          match render mc dm with
          | Ok h => h
          | Throw message => render_error message
          end
      | None => if dm then "\[" ++ mc ++ "\]" else "\(" ++ mc ++ "\)"
      end
  end.

(** [processLatex(code)]; [katex] is what [importKatex()] resolved to
    ([None] for [null]). *)
Definition processLatex (katex : option Katex) (code : string) : string :=
  match katex with
  | None => "Error loading KaTeX"
  | Some k =>
      fold_left (fun html p => html ++ render_part k p) (parts code)
        EmptyString
  end.

(** What the escaping does to one character of a text part. *)
Definition escape_char (c : ascii) : string :=
  if Ascii.eqb c "&" then "&amp;"
  else if Ascii.eqb c "<" then "&lt;"
  else if Ascii.eqb c ">" then "&gt;"
  else if Ascii.eqb c newline then "<br>"
  else String c EmptyString.

Fixpoint flat_map_string (f : ascii -> string) (s : string) : string :=
  match s with
  | EmptyString => EmptyString
  | String c s' => f c ++ flat_map_string f s'
  end.

(** A string free of the two characters that open and close a tag. *)
Definition markup_free (s : string) : bool :=
  negb (occurs "<" s) && negb (occurs ">" s).

(** An unterminated single dollar: the text after it reaches a line break
    or the end of the input before any further dollar. *)
Fixpoint unterminated (rest : string) : bool :=
  match rest with
  | EmptyString => true
  | String c rest' =>
      if Ascii.eqb c dollar then false
      else if Ascii.eqb c newline then true
      else unterminated rest'
  end.

(** No match of the pattern starts inside [pre] when [pre ++ s] is
    scanned: the search that starts at [pre] arrives at [s]. *)
Fixpoint no_match_within (pre s : string) : bool :=
  match pre with
  | EmptyString => true
  | String c pre' =>
      match match_at (pre ++ s) with
      | Some _ => false
      | None => no_match_within pre' s
      end
  end.

(** A math part produced by the single-dollar alternative: it opens with
    one dollar, not two. *)
Definition single_dollar_math (p : MathPart) : bool :=
  match type p with
  | math => starts_with "$" (content p) && negb (starts_with "$$" (content p))
  | text => false
  end.

(** The positions the loop visits: [scan_at code s] when [s] is the
    input from [lastIndex] on at the start of some iteration. *)
Inductive scan_at (code : string) : string -> Prop :=
| scan_start : scan_at code code
| scan_next s skipped m rest :
    scan_at code s -> exec s = Some (skipped, m, rest) -> scan_at code rest.

(** The parts from an unterminated dollar on, [pre] being the text the
    search has skipped before it: one text part up to the next match, or
    to the end of the input when nothing matches any more. *)
Definition parts_from_dollar (pre rest : string) : list MathPart :=
  match exec rest with
  | Some (skipped, m, after) =>
      {| type := text; content := pre ++ "$" ++ skipped |}
      :: {| type := math; content := m |} :: parts after
  | None => [{| type := text; content := pre ++ "$" ++ rest |}]
  end.

Definition concat_strings (l : list string) : string :=
  fold_right String.append EmptyString l.

(** *** Shapes of the parts *)

(** [contains lit s]: [lit] occurs somewhere in [s] ([s.includes(lit)]). *)
Fixpoint contains (lit s : string) : bool :=
  match strip_prefix lit s with
  | Some _ => true
  | None =>
      match s with
      | EmptyString => false
      | String _ s' => contains lit s'
      end
  end.

(** The four shapes a match of the pattern can have, with what the
    pattern allows between the delimiters. *)
Definition delimited (m : string) : Prop :=
  (exists body, m = "$$" ++ body ++ "$$" /\ occurs dollar body = false)
  \/ (exists body, m = "\[" ++ body ++ "\]" /\ contains "\]" body = false)
  \/ (exists body, m = "\(" ++ body ++ "\)" /\ contains "\)" body = false)
  \/ (exists body, m = "$" ++ body ++ "$" /\ is_empty body = false
                   /\ all_chars not_dollar_nl body = true).

Definition is_text (p : MathPart) : bool :=
  match type p with text => true | math => false end.

(** No two neighbours in the list are both text parts. *)
Fixpoint no_adjacent_text (ps : list MathPart) : bool :=
  match ps with
  | p :: (q :: _) as rest => negb (is_text p && is_text q) && no_adjacent_text rest
  | _ => true
  end.

(** A character that opens none of the delimiters. *)
Definition not_delimiter (c : ascii) : bool :=
  negb (Ascii.eqb c dollar) && negb (Ascii.eqb c "\").

(** A character the escaping leaves alone. *)
Definition not_html_special (c : ascii) : bool :=
  negb (Ascii.eqb c "&") && negb (Ascii.eqb c "<") && negb (Ascii.eqb c ">")
  && negb (Ascii.eqb c newline).

End Segmenter.

(** ** JSON values and the built-ins the code calls *)

#[local] Set Warnings "-register-all".

Inductive Json :=
| JNull
| JBool (b : bool)
| JNumber (n : Z)
| JString (s : string)
| JArray (items : list Json)
| JObject (fields : list (string * Json)).

(** [JSON.parse] (which throws on text that is not JSON),
    [JSON.stringify] and [atob] (which throws on text that is not
    base64) are built-ins of the platform. *)
Record Runtime := {
  JSON_parse : string -> result Json;
  JSON_stringify : Json -> string;
  atob : string -> result string
}.

(** Property access [o.k] on an object; [None] is [undefined]. *)
Fixpoint obj_get (k : string) (fields : list (string * Json)) : option Json :=
  match fields with
  | [] => None
  | (k', v) :: fields' => if String.eqb k' k then Some v else obj_get k fields'
  end.

(** [{ ...o, k: v }]: an existing key keeps its place. *)
Fixpoint obj_set (k : string) (v : Json) (fields : list (string * Json))
  : list (string * Json) :=
  match fields with
  | [] => [(k, v)]
  | (k', v') :: fields' =>
      if String.eqb k' k then (k, v) :: fields'
      else (k', v') :: obj_set k v fields'
  end.

(** [{ ...a, ...b }] *)
Definition obj_spread (a b : list (string * Json)) : list (string * Json) :=
  fold_left (fun acc kv => obj_set (fst kv) (snd kv) acc) b a.

(** The own enumerable properties a spread copies from a JSON value that
    was found through its [id] property: those of an object. *)
Definition own_fields (j : Json) : list (string * Json) :=
  match j with JObject fields => fields | _ => [] end.

(** [j.k] as a string, when it is one. *)
Definition string_field (k : string) (j : Json) : option string :=
  match obj_get k (own_fields j) with
  | Some (JString s) => Some s
  | _ => None
  end.

(** A string that is truthy: present and not empty. *)
Definition truthy (s : option string) : option string :=
  match s with
  | Some v => if is_empty v then None else Some v
  | None => None
  end.

(** ** The document store (app/services/documentService.ts) *)

Module DocumentService.

Definition DOCUMENTS_KEY : string := "latex_editor_documents".

(** What [window.localStorage] is for the running code. *)
Inductive Window :=
| NoWindow                                  (* typeof window === 'undefined' *)
| Blocked (message : string)                (* every access to localStorage throws *)
| Storage (items : gmap string string).

Definition localStorage_getItem (w : Window) (key : string)
  : result (option string) :=
  match w with
  | NoWindow => Ok None
  | Blocked message => Throw message
  | Storage items => Ok (items !! key)
  end.

Definition localStorage_setItem (w : Window) (key value : string)
  : result Window :=
  match w with
  | NoWindow => Ok w
  | Blocked message => Throw message
  | Storage items => Ok (Storage (<[key := value]> items))
  end.

(** [safeLocalStorage]: both accessors catch what the storage throws. *)
Definition safe_getItem (w : Window) (key : string) : option string :=
  match localStorage_getItem w key with
  | Ok v => v
  | Throw _ => None
  end.

Definition safe_setItem (w : Window) (key value : string) : Window :=
  match localStorage_setItem w key value with
  | Ok w' => w'
  | Throw _ => w
  end.

(** [{ id?, title, content }], the argument of [saveDocument]. *)
Record DocInput := {
  in_id : option string;
  in_title : string;
  in_content : string
}.

(** [new Date().toISOString()] and [Date.now()] at the time of a call. *)
Record Clock := { nowIso : string; nowMs : Z }.

Section WithRuntime.
Context (js : Runtime).

(** The [try] block of [getDocuments]. *)
Definition getDocuments_try (w : Window) : result (list Json) :=
  match safe_getItem w DOCUMENTS_KEY with
  | None => Ok []
  | Some docsJson =>
      if is_empty docsJson then Ok []
      else match JSON_parse js docsJson with
           | Ok (JArray items) => Ok items
           | Ok _ => Ok []
           | Throw message => Throw message
           end
  end.

(** [getDocuments()]: the [catch] turns a throw into the empty list. *)
Definition getDocuments (w : Window) : result (list Json) :=
  match getDocuments_try w with
  | Ok docs => Ok docs
  | Throw _ => Ok []
  end.

Definition docs_of (w : Window) : list Json :=
  match getDocuments w with Ok docs => docs | Throw _ => [] end.

(** [d.id === id] *)
Definition has_id (id : string) (d : Json) : bool :=
  match string_field "id" d with
  | Some s => String.eqb s id
  | None => false
  end.

(** [doc.id] inside a callback: reading a property of [null] throws a
    [TypeError]; every other JSON value answers, with [undefined] when
    it has no such property. *)
Definition read_id (d : Json) : result (option Json) :=
  match d with
  | JNull => Throw "Cannot read properties of null (reading 'id')"
  | _ => Ok (obj_get "id" (own_fields d))
  end.

(** [doc.id === id] *)
Definition id_is (id : string) (d : Json) : result bool :=
  match read_id d with
  | Ok (Some (JString s)) => Ok (String.eqb s id)
  | Ok _ => Ok false
  | Throw message => Throw message
  end.

(** [docs.findIndex(d => d.id === id)]: the callback runs on the
    entries in order and stops at the first that has the id; an entry
    [null] met before that throws the callback's [TypeError].
    [Ok None] is [-1]. *)
Fixpoint findIndex (id : string) (docs : list Json) : result (option nat) :=
  match docs with
  | [] => Ok None
  | d :: docs' =>
      match id_is id d with
      | Ok true => Ok (Some 0)
      | Ok false =>
          match findIndex id docs' with
          | Ok found => Ok (option_map S found)
          | Throw message => Throw message
          end
      | Throw message => Throw message
      end
  end.

Definition input_fields (doc : DocInput) : list (string * Json) :=
  match in_id doc with
  | Some id => [("id", JString id)]
  | None => []
  end ++ [("title", JString (in_title doc)); ("content", JString (in_content doc))].

(** [saveDocument(doc)].  A falsy [doc.id] (absent or empty) creates a
    document; otherwise the stored one is updated.  A missing one is an
    error, and so is a [null] entry that the search meets: the [catch]
    logs either and throws it again, with nothing written. *)
Definition saveDocument (clock : Clock) (doc : DocInput) (w : Window)
  : result Json * Window :=
  let docs := docs_of w in
  let now := JString (nowIso clock) in
  let store updatedDoc docs' :=
    (Ok updatedDoc,
     safe_setItem w DOCUMENTS_KEY (JSON_stringify js (JArray docs'))) in
  match truthy (in_id doc) with
  | Some id =>
      match findIndex id docs with
      | Throw message => (Throw message, w)
      | Ok None => (Throw "Document not found", w)
      | Ok (Some index) =>
          let old := match docs !! index with
                     | Some d => own_fields d
                     | None => []
                     end in
          let updatedDoc := JObject
            (obj_set "updatedAt" now (obj_spread old (input_fields doc))) in
          store updatedDoc (<[index := updatedDoc]> docs)
      end
  | None =>
      let newDoc := JObject
        (obj_set "updatedAt" now
           (obj_set "createdAt" now
              (obj_set "id" (JString ("doc_" ++ pretty (nowMs clock)))
                 (input_fields doc)))) in
      store newDoc (docs ++ [newDoc])%list
  end.

(** *** Reading and deleting *)

(** [docs.find(doc => doc.id === id)] *)
Fixpoint find_by_id (id : string) (docs : list Json) : result (option Json) :=
  match docs with
  | [] => Ok None
  | d :: docs' =>
      match id_is id d with
      | Ok true => Ok (Some d)
      | Ok false => find_by_id id docs'
      | Throw message => Throw message
      end
  end.

(** [getDocument(id)]; [None] is [undefined], also what the [catch]
    returns. *)
Definition getDocument (id : string) (w : Window) : option Json :=
  match find_by_id id (docs_of w) with
  | Ok found => found
  | Throw _ => None
  end.

(** [docs.filter(doc => doc.id !== id)] *)
Fixpoint filter_out (id : string) (docs : list Json) : result (list Json) :=
  match docs with
  | [] => Ok []
  | d :: docs' =>
      match id_is id d with
      | Ok same =>
          match filter_out id docs' with
          | Ok kept => Ok (if same then kept else d :: kept)
          | Throw message => Throw message
          end
      | Throw message => Throw message
      end
  end.

(** [deleteDocument(id)]; the [catch] logs and throws again. *)
Definition deleteDocument (id : string) (w : Window) : result unit * Window :=
  match filter_out id (docs_of w) with
  | Ok kept =>
      (Ok tt, safe_setItem w DOCUMENTS_KEY (JSON_stringify js (JArray kept)))
  | Throw message => (Throw message, w)
  end.

(** The runtime writes [j] as a non-empty text and reads that text back
    as [j]. *)
Definition round_trips (j : Json) : Prop :=
  is_empty (JSON_stringify js j) = false
  /\ JSON_parse js (JSON_stringify js j) = Ok j.

(** No entry of the array is [null]. *)
Definition no_null (docs : list Json) : bool :=
  forallb (fun d => match d with JNull => false | _ => true end) docs.

(** The document an updating [saveDocument] puts in the place of [old]. *)
Definition updated_document (clock : Clock) (old : Json) (doc : DocInput) : Json :=
  JObject
    (obj_set "updatedAt" (JString (nowIso clock))
       (obj_spread (own_fields old) (input_fields doc))).

(** The document a creating [saveDocument] builds. *)
Definition new_document (clock : Clock) (doc : DocInput) : Json :=
  JObject
    (obj_set "updatedAt" (JString (nowIso clock))
       (obj_set "createdAt" (JString (nowIso clock))
          (obj_set "id" (JString ("doc_" ++ pretty (nowMs clock)))
             (input_fields doc)))).

End WithRuntime.
End DocumentService.

(** ** The compile endpoint ([POST] of the compile route) *)

(** ** Base64, as [Buffer.prototype.toString('base64')] produces it and
    [atob] reads it *)

Module Base64.

Definition base64_alphabet : string :=
  "ABCDEFGHIJKLMNOPQRSTUVWXYZabcdefghijklmnopqrstuvwxyz0123456789+/".

Definition base64_digit (n : N) : ascii :=
  match String.get (N.to_nat n) base64_alphabet with
  | Some c => c
  | None => "="%char
  end.

Definition sextets (chunk : N) (count : nat) : string :=
  fold_right
    (fun i acc =>
       String (base64_digit (N.land (N.shiftr chunk (6 * N.of_nat i)) 63)) acc)
    EmptyString
    (firstn count [3; 2; 1; 0]).


Fixpoint base64_encode (bytes : string) : string :=
  match bytes with
  | EmptyString => EmptyString
  | String a EmptyString =>
      sextets (N.shiftl (N_of_ascii a) 16) 2 ++ "=="
  | String a (String b EmptyString) =>
      sextets (N.lor (N.shiftl (N_of_ascii a) 16) (N.shiftl (N_of_ascii b) 8)) 3
      ++ "="
  | String a (String b (String c rest)) =>
      sextets (N.lor (N.lor (N.shiftl (N_of_ascii a) 16)
                            (N.shiftl (N_of_ascii b) 8)) (N_of_ascii c)) 4
      ++ base64_encode rest
  end.

(** The value of a base64 digit. *)
Fixpoint index_of (c : ascii) (alphabet : string) : option N :=
  match alphabet with
  | EmptyString => None
  | String a rest =>
      if Ascii.eqb a c then Some 0%N else option_map N.succ (index_of c rest)
  end.

Definition digit_value (c : ascii) : option N := index_of c base64_alphabet.

Definition byte_at (chunk : N) (i : N) : ascii :=
  ascii_of_N (N.land (N.shiftr chunk (8 * i)) 255).

(** Decoding of padded base64; anything else is the
    [InvalidCharacterError] of [atob]. *)
Fixpoint base64_decode (s : string) : result string :=
  match s with
  | EmptyString => Ok EmptyString
  | String a (String b (String c (String d rest))) =>
      match digit_value a, digit_value b with
      | Some x, Some y =>
          let xy := N.lor (N.shiftl x 18) (N.shiftl y 12) in
          if Ascii.eqb d "=" && is_empty rest then
            if Ascii.eqb c "=" then Ok (String (byte_at xy 2) EmptyString)
            else match digit_value c with
                 | Some z =>
                     let xyz := N.lor xy (N.shiftl z 6) in
                     Ok (String (byte_at xyz 2) (String (byte_at xyz 1) EmptyString))
                 | None => Throw "InvalidCharacterError"
                 end
          else match digit_value c, digit_value d, base64_decode rest with
               | Some z, Some t, Ok tail =>
                   let n := N.lor (N.lor xy (N.shiftl z 6)) t in
                   Ok (String (byte_at n 2)
                         (String (byte_at n 1) (String (byte_at n 0) tail)))
               | _, _, _ => Throw "InvalidCharacterError"
               end
      | _, _ => Throw "InvalidCharacterError"
      end
  | _ => Throw "InvalidCharacterError"
  end.

End Base64.

Module Http.

(** The JSON body of the endpoint's response: [{ pdf }] or [{ error }]. *)
Record JsonBody := { pdf : option string; error : option string }.


(** How an [await fetch(...)] of the client ends: the promise rejects, or
    a response arrives, with its [ok] flag and its JSON body. *)
Inductive FetchOutcome :=
| Rejected (message : string)
| Responded (ok : bool) (body : JsonBody).

End Http.

Module CompileRoute.
Import Http Base64.

(** *** The handler *)

(** The parsed request: [request.json()] throws on a malformed body;
    otherwise [content] is the string the body carries, if any. *)
Inductive Request :=
| Malformed (message : string)
| Body (content : option string).

Record Response := { status : Z; body : JsonBody }.

(** [NextResponse.json(body)] answers 200 unless a status is given. *)
Definition json_response (b : JsonBody) (st : option Z) : Response :=
  {| status := match st with Some s => s | None => 200%Z end; body := b |}.

(** One run of the external [pdflatex] process, once started: its exit
    code, what it printed, and the files it left next to the source, by
    extension (as [".pdf"], [".log"], [".aux"]). *)
Record ToolRun := {
  exit_code : Z;
  errorOutput : string;
  output : string;
  written : list (string * string)
}.

(** The effects of the handler on the outside world, in order. *)
Inductive Effect :=
| WriteFile (path : string)
| Spawn (command : string) (args : list string)
| ReadFile (path : string)
| Unlink (path : string).

(** The handler's world: the files on disk and the trace of effects. *)
Record Disk := { files : gmap string string; trace : list Effect }.

Definition log (e : Effect) (d : Disk) : Disk :=
  {| files := files d; trace := (trace d ++ [e])%list |}.

Definition writeFile (path data : string) (d : Disk) : Disk :=
  log (WriteFile path) {| files := <[path := data]> (files d); trace := trace d |}.

(** [fs.readFile] rejects when the file does not exist. *)
Definition readFile (path : string) (d : Disk) : result string * Disk :=
  (match files d !! path with
   | Some data => Ok data
   | None => Throw ("ENOENT: no such file or directory, open '" ++ path ++ "'")
   end, log (ReadFile path) d).

(** [fs.unlink(p).catch(() => {})]: a missing file is not an error. *)
Definition unlink (path : string) (d : Disk) : Disk :=
  log (Unlink path) {| files := delete path (files d); trace := trace d |}.

(** [p.replace(/old$/, new)] for a literal extension [old]. *)
Definition replace_ext (old new p : string) : string :=
  match strip_suffix old p with
  | Some stem => stem ++ new
  | None => p
  end.

(** The segments of a path, between its slashes. *)
Fixpoint split_path (p : string) : list string :=
  match p with
  | EmptyString => [EmptyString]
  | String c rest =>
      if Ascii.eqb c "/" then EmptyString :: split_path rest
      else match split_path rest with
           | seg :: segs => String c seg :: segs
           | [] => [String c EmptyString]
           end
  end.

(** One step of [normalizeString]: [kept] holds the segments so far, the
    last one first.  Empty segments and [.] are dropped; [..] removes
    the segment before it, and where there is none it is dropped in an
    absolute path and kept in a relative one. *)
Definition normalize_step (isAbsolute : bool) (kept : list string)
  (seg : string) : list string :=
  if is_empty seg || String.eqb seg "." then kept
  else if String.eqb seg ".." then
    match kept with
    | last :: before =>
        if String.eqb last ".." then
          (if isAbsolute then kept else seg :: kept)
        else before
    | [] => if isAbsolute then [] else [seg]
    end
  else seg :: kept.

(** [path.normalize(p)] of POSIX paths. *)
Definition normalize (p : string) : string :=
  if is_empty p then "."
  else
    let isAbsolute := match strip_prefix "/" p with Some _ => true | None => false end in
    let trailingSeparator :=
      match last_char p with Some c => Ascii.eqb c "/" | None => false end in
    let kept := fold_left (normalize_step isAbsolute) (split_path p) [] in
    let inner := String.concat "/" (rev kept) in
    if is_empty inner then
      (if isAbsolute then "/" else if trailingSeparator then "./" else ".")
    else (if isAbsolute then "/" else "")
         ++ inner ++ (if trailingSeparator then "/" else "").

(** [join(dir, name)] of POSIX paths, for a [name] that is not empty:
    the arguments that are not empty are put together with a slash and
    the result is normalized. *)
Definition join (dir name : string) : string :=
  normalize (if is_empty dir then name else dir ++ "/" ++ name).

(** What the process does to the disk: it writes its files next to the
    source, under the source's name with another extension. *)
Definition run_tool (tempFile : string) (run : ToolRun) (d : Disk) : Disk :=
  {| files := fold_left
                (fun fs ext_data =>
                   <[replace_ext ".tex" (fst ext_data) tempFile := snd ext_data]> fs)
                (written run) (files d);
     trace := trace d |}.

Definition spawn_pdflatex (tempDir tempFile : string) (run : ToolRun)
  (d : Disk) : Disk :=
  run_tool tempFile run
    (log (Spawn "pdflatex"
            ["-interaction=nonstopmode"; "-halt-on-error";
             "-output-directory=" ++ tempDir; tempFile]) d).

(** [a || b] on strings *)
Definition or_string (a b : string) : string := if is_empty a then b else a.

(** The [close] listener: the promise resolves with the PDF or rejects. *)
Definition on_close (tempFile outputFile : string) (run : ToolRun) (d : Disk)
  : result string * Disk :=
  if negb (exit_code run =? 0)%Z then
    (Throw ("LaTeX compilation failed: "
            ++ or_string (errorOutput run) (output run)), d)
  else
    match readFile outputFile d with
    | (Throw message, d1) => (Throw message, d1)
    | (Ok pdfData, d1) =>
        let d2 := unlink tempFile d1 in
        let d3 := unlink outputFile d2 in
        let d4 := unlink (replace_ext ".pdf" ".log" outputFile) d3 in
        let d5 := unlink (replace_ext ".pdf" ".aux" outputFile) d4 in
        (Ok pdfData, d5)
    end.

(** [POST(request)] when the process it spawns is started.  [tempDir]
    is [os.tmpdir()], [nowMs] is [Date.now()], [run] is what the spawned
    process will do.  [POST_launch] below is the handler for either
    outcome of [spawn]. *)
Definition POST (tempDir : string) (nowMs : Z) (run : ToolRun)
  (request : Request) (d : Disk) : Response * Disk :=
  match request with
  | Malformed message =>
      (json_response {| pdf := None; error := Some message |} (Some 500%Z), d)
  | Body content =>
      match truthy content with
      | None =>
          (json_response {| pdf := None; error := Some "No content provided" |}
             (Some 400%Z), d)
      | Some source =>
          let tempFile := join tempDir ("latex-" ++ pretty nowMs ++ ".tex") in
          let outputFile := replace_ext ".tex" ".pdf" tempFile in
          let d1 := writeFile tempFile source d in
          let d2 := spawn_pdflatex tempDir tempFile run d1 in
          match on_close tempFile outputFile run d2 with
          | (Ok pdfBuffer, d3) =>
              (json_response
                 {| pdf := Some (base64_encode pdfBuffer); error := None |} None,
               d3)
          | (Throw message, d3) =>
              (json_response {| pdf := None; error := Some message |}
                 (Some 500%Z), d3)
          end
      end
  end.

(** How [spawn('pdflatex', ...)] goes.  The process runs and ends, or it
    cannot be started at all (the program is not installed, say): then
    the child emits ['error'], for which [POST] registers no listener;
    the event is thrown as an uncaught exception and no ['close']
    follows, so that the promise [POST] awaits is never settled. *)
Inductive Launch :=
| Runs (run : ToolRun)
| LaunchFails (message : string).

(** [POST(request)] for either outcome of [spawn]; [None] is no response
    at all.  What is answered before [spawn] is reached does not depend
    on the outcome. *)
Definition POST_launch (tempDir : string) (nowMs : Z) (launch : Launch)
  (request : Request) (d : Disk) : option Response * Disk :=
  match request with
  | Malformed message =>
      (Some (json_response {| pdf := None; error := Some message |}
               (Some 500%Z)), d)
  | Body content =>
      match truthy content with
      | None =>
          (Some (json_response
                   {| pdf := None; error := Some "No content provided" |}
                   (Some 400%Z)), d)
      | Some source =>
          let tempFile := join tempDir ("latex-" ++ pretty nowMs ++ ".tex") in
          let outputFile := replace_ext ".tex" ".pdf" tempFile in
          let d1 := writeFile tempFile source d in
          match launch with
          | LaunchFails _ =>
              (None,
               log (Spawn "pdflatex"
                      ["-interaction=nonstopmode"; "-halt-on-error";
                       "-output-directory=" ++ tempDir; tempFile]) d1)
          | Runs run =>
              let d2 := spawn_pdflatex tempDir tempFile run d1 in
              match on_close tempFile outputFile run d2 with
              | (Ok pdfBuffer, d3) =>
                  (Some (json_response
                           {| pdf := Some (base64_encode pdfBuffer);
                              error := None |} None), d3)
              | (Throw message, d3) =>
                  (Some (json_response {| pdf := None; error := Some message |}
                           (Some 500%Z)), d3)
              end
          end
      end
  end.

(** Whether the handler started a process. *)
Definition spawned (d : Disk) : bool :=
  existsb (fun e => match e with Spawn _ _ => true | _ => false end) (trace d).

(** The source file of a request and the PDF the process is expected to
    leave next to it. *)
Definition tempFile_of (tempDir : string) (nowMs : Z) : string :=
  join tempDir ("latex-" ++ pretty nowMs ++ ".tex").

Definition outputFile_of (tempDir : string) (nowMs : Z) : string :=
  replace_ext ".tex" ".pdf" (tempFile_of tempDir nowMs).

(** The PDF on disk once the process has run on [source]. *)
Definition compiled_pdf (tempDir : string) (nowMs : Z) (run : ToolRun)
  (source : string) (d : Disk) : option string :=
  files (spawn_pdflatex tempDir (tempFile_of tempDir nowMs) run
           (writeFile (tempFile_of tempDir nowMs) source d))
  !! outputFile_of tempDir nowMs.

Definition unlinked (d : Disk) : bool :=
  existsb (fun e => match e with Unlink _ => true | _ => false end) (trace d).

Definition success_body (bytes : string) : JsonBody :=
  {| pdf := Some (base64_encode bytes); error := None |}.

Definition error_body (message : string) : JsonBody :=
  {| pdf := None; error := Some message |}.

(** The four paths the handler unlinks. *)
Definition unlinked_paths (tempDir : string) (nowMs : Z) : list string :=
  [tempFile_of tempDir nowMs;
   outputFile_of tempDir nowMs;
   replace_ext ".pdf" ".log" (outputFile_of tempDir nowMs);
   replace_ext ".pdf" ".aux" (outputFile_of tempDir nowMs)].

(** The paths the process writes. *)
Definition written_paths (tempDir : string) (nowMs : Z) (run : ToolRun)
  : list string :=
  map (fun ext_data => replace_ext ".tex" (fst ext_data) (tempFile_of tempDir nowMs))
    (written run).

(** What [fetch] hands to the client for a response of the handler:
    [response.ok] is true for the statuses 200 to 299. *)
Definition fetch_outcome (r : Response) : FetchOutcome :=
  Responded ((200 <=? status r)%Z && (status r <=? 299)%Z) (body r).

End CompileRoute.

(** ** Object URLs: [URL.createObjectURL] and [URL.revokeObjectURL] *)

Module ObjectUrl.

(** The browser's registry: the blob behind every URL that was created
    and not revoked, and how many URLs were created so far. *)
Record Registry := { live : gmap string string; minted : N }.

Definition createObjectURL (blob : string) (r : Registry) : string * Registry :=
  let url := "blob:" ++ pretty (minted r) in
  (url, {| live := <[url := blob]> (live r); minted := minted r + 1 |}).

Definition revokeObjectURL (url : string) (r : Registry) : Registry :=
  {| live := delete url (live r); minted := minted r |}.

(** [if (ref) URL.revokeObjectURL(ref)] *)
Definition revoke_if_set (ref : string) (r : Registry) : Registry :=
  if is_empty ref then r else revokeObjectURL ref r.

End ObjectUrl.

(** ** The stand-alone editor (app/components/Editor.tsx) *)

(** The [src] of the preview [iframe]:
    [`${pdfUrl}#toolbar=0&navpanes=0&scrollbar=0&view=FitH`]. *)
Definition iframe_src (pdfUrl : string) : string :=
  pdfUrl ++ "#toolbar=0&navpanes=0&scrollbar=0&view=FitH".

Module PdfEditor.
Import ObjectUrl.

(** The [useState] cells and the [pdfUrlRef] ref of the component. *)
Record State := {
  pdfUrl : string;
  isCompiling : bool;
  error : option string;
  pdfUrlRef : string
}.

(** The component in its environment: the object URLs of the page and
    the compile requests that were sent and have not been answered,
    numbered in the order of their sending. *)
Record World := {
  ui : State;
  urls : Registry;
  inflight : gmap nat string;
  issued : nat
}.

(** JavaScript white space and line terminators among the ASCII
    characters. *)
Definition is_space (c : ascii) : bool :=
  let n := nat_of_ascii c in
  (n =? 32)%nat || ((9 <=? n)%nat && (n <=? 13)%nat).

(** The other white space that [trim] removes, by its UTF-8 bytes:
    U+00A0 in two bytes; U+1680, U+2000 to U+200A, U+2028, U+2029,
    U+202F, U+205F, U+3000 and U+FEFF in three. *)
Definition is_space2 (c1 c2 : ascii) : bool :=
  (nat_of_ascii c1 =? 194)%nat && (nat_of_ascii c2 =? 160)%nat.

Definition is_space3 (c1 c2 c3 : ascii) : bool :=
  let n1 := nat_of_ascii c1 in
  let n2 := nat_of_ascii c2 in
  let n3 := nat_of_ascii c3 in
  ((n1 =? 225) && (n2 =? 154) && (n3 =? 128))%nat
  || ((n1 =? 226) && (n2 =? 128)
      && (((128 <=? n3) && (n3 <=? 138)) || (n3 =? 168) || (n3 =? 169)
          || (n3 =? 175)))%nat
  || ((n1 =? 226) && (n2 =? 129) && (n3 =? 159))%nat
  || ((n1 =? 227) && (n2 =? 128) && (n3 =? 128))%nat
  || ((n1 =? 239) && (n2 =? 187) && (n3 =? 191))%nat.

(** [!code.trim()]: the text is white space from end to end. *)
Fixpoint is_blank (code : string) : bool :=
  match code with
  | EmptyString => true
  | String c1 rest1 =>
      if is_space c1 then is_blank rest1
      else match rest1 with
           | EmptyString => false
           | String c2 rest2 =>
               if is_space2 c1 c2 then is_blank rest2
               else match rest2 with
                    | EmptyString => false
                    | String c3 rest3 =>
                        is_space3 c1 c2 c3 && is_blank rest3
                    end
           end
  end.

(** [compileLatex(code)] up to its [await fetch(...)]. *)
Definition compileLatex_begin (code : string) (w : World) : World :=
  if is_blank code then
    {| ui := {| pdfUrl := ""; isCompiling := isCompiling (ui w);
                error := error (ui w); pdfUrlRef := "" |};
       urls := urls w; inflight := inflight w; issued := issued w |}
  else
    {| ui := {| pdfUrl := pdfUrl (ui w); isCompiling := true;
                error := None; pdfUrlRef := pdfUrlRef (ui w) |};
       urls := urls w;
       inflight := <[issued w := code]> (inflight w);
       issued := S (issued w) |}.

Section WithRuntime.
Context (js : Runtime).

(** The [try] block after the [await], up to the decoded bytes of the
    blob. *)
Definition decode_response (outcome : Http.FetchOutcome) : result string :=
  match outcome with
  | Http.Rejected message => Throw message
  | Http.Responded ok body =>
      if ok then
        atob js (match Http.pdf body with Some b64 => b64 | None => "undefined" end)
      else
        Throw (match truthy (Http.error body) with
               | Some message => message
               | None => "Failed to compile LaTeX"
               end)
  end.

(** [compileLatex] from the point where its [fetch] settles. *)
Definition compileLatex_settle (outcome : Http.FetchOutcome) (w : World)
  : World :=
  match decode_response outcome with
  | Ok blob =>
      let r1 := revoke_if_set (pdfUrlRef (ui w)) (urls w) in
      let '(newPdfUrl, r2) := createObjectURL blob r1 in
      {| ui := {| pdfUrl := newPdfUrl; isCompiling := false;
                  error := error (ui w); pdfUrlRef := newPdfUrl |};
         urls := r2; inflight := inflight w; issued := issued w |}
  | Throw message =>
      {| ui := {| pdfUrl := ""; isCompiling := false;
                  error := Some message; pdfUrlRef := "" |};
         urls := urls w; inflight := inflight w; issued := issued w |}
  end.

(** What happens to the component, one event at a time: the debounced
    effect calls [compileLatex(latexCode)], or the request that was sent
    as number [seq] is answered. *)
Inductive Event :=
| Compile (code : string)
| Resolve (seq : nat) (outcome : Http.FetchOutcome).

Definition step (e : Event) (w : World) : World :=
  match e with
  | Compile code => compileLatex_begin code w
  | Resolve seq outcome =>
      match inflight w !! seq with
      | Some _ =>
          compileLatex_settle outcome
            {| ui := ui w; urls := urls w;
               inflight := delete seq (inflight w); issued := issued w |}
      | None => w
      end
  end.

Definition run (events : list Event) (w : World) : World :=
  fold_left (fun w e => step e w) events w.

End WithRuntime.

(** The freshly mounted component. *)
Definition initial : World :=
  {| ui := {| pdfUrl := ""; isCompiling := false; error := None;
              pdfUrlRef := "" |};
     urls := {| live := ∅; minted := 0 |};
     inflight := ∅; issued := 0 |}.

(** The blob behind [pdfUrl]: what an [iframe] on that URL loads.
    Whether the [iframe] is rendered at all is [preview]. *)
Definition shown_pdf (w : World) : option string :=
  live (urls w) !! pdfUrl (ui w).

(** What the preview pane holds. *)
Inductive Pane :=
| Spinner
| ErrorPane (message : string)
| PdfFrame (src : string)
| Placeholder.

(** The preview pane as the component renders it:
    [isCompiling ? spinner : error ? error pane : pdfUrl ? iframe :
    placeholder]. *)
Definition preview (s : State) : Pane :=
  if isCompiling s then Spinner
  else match truthy (error s) with
       | Some message => ErrorPane message
       | None =>
           if is_empty (pdfUrl s) then Placeholder
           else PdfFrame (iframe_src (pdfUrl s))
       end.

(** *** Unmounting and the debounce of the stand-alone editor *)

(** The clean-up of the first effect: [pdfUrlRef.current] is revoked if
    it is set. *)
Definition unmount (w : World) : World :=
  {| ui := ui w; urls := revoke_if_set (pdfUrlRef (ui w)) (urls w);
     inflight := inflight w; issued := issued w |}.

(** The component with its text and its debounce timer: [latexCode],
    the [compileTimeout] ref, and the callbacks that [setTimeout] holds,
    each with the [latexCode] its closure captured. *)
Record Session := {
  world : World;
  latexCode : string;
  compileTimeout : option nat;
  pending : gmap nat string;
  nextTimer : nat
}.

(** [if (compileTimeout.current) clearTimeout(compileTimeout.current)],
    at the head of the effect and again as its clean-up. *)
Definition clear_compileTimeout (s : Session) : Session :=
  {| world := world s; latexCode := latexCode s;
     compileTimeout := compileTimeout s;
     pending := match compileTimeout s with
                | Some id => delete id (pending s)
                | None => pending s
                end;
     nextTimer := nextTimer s |}.

(** The body of the debounce effect. *)
Definition debounce_effect (s : Session) : Session :=
  let s1 := clear_compileTimeout s in
  {| world := world s1; latexCode := latexCode s1;
     compileTimeout := Some (nextTimer s1);
     pending := <[nextTimer s1 := latexCode s1]> (pending s1);
     nextTimer := S (nextTimer s1) |}.

(** [setLatexCode(code)]: a new text renders the component again, which
    runs the clean-up of the effect and then the effect; the text that
    is already there changes nothing. *)
Definition setLatexCode (code : string) (s : Session) : Session :=
  if String.eqb code (latexCode s) then s
  else debounce_effect
         (clear_compileTimeout
            {| world := world s; latexCode := code;
               compileTimeout := compileTimeout s; pending := pending s;
               nextTimer := nextTimer s |}).

(** The timer [id] fires: its callback calls [compileLatex] with the
    text it captured. *)
Definition timer_fires (id : nat) (s : Session) : Session :=
  match pending s !! id with
  | Some code =>
      {| world := compileLatex_begin code (world s); latexCode := latexCode s;
         compileTimeout := compileTimeout s; pending := delete id (pending s);
         nextTimer := nextTimer s |}
  | None => s
  end.

(** The component after its first render with the text [code]. *)
Definition mount (code : string) : Session :=
  debounce_effect
    {| world := initial; latexCode := code; compileTimeout := None;
       pending := ∅; nextTimer := 1 |}.

Inductive Input :=
| Types (code : string)
| Fires (id : nat).

Definition react (i : Input) (s : Session) : Session :=
  match i with
  | Types code => setLatexCode code s
  | Fires id => timer_fires id s
  end.

Definition session_run (inputs : list Input) (s : Session) : Session :=
  fold_left (fun s i => react i s) inputs s.

(** At most one callback is pending: the one [compileTimeout] names,
    and it holds the current text. *)
Definition debounced (s : Session) : Prop :=
  forall id code, pending s !! id = Some code ->
                  compileTimeout s = Some id /\ code = latexCode s.

End PdfEditor.

(** ** The document editor ([Editor] with [documentId], saving through
    the document store before it compiles) *)

Module DocumentEditor.
Import ObjectUrl.

(** The [useState] cells and the two refs of the component. *)
Record State := {
  document : option Json;
  title : string;
  content : string;
  isSaving : bool;
  isNew : bool;
  pdfUrl : string;
  isCompiling : bool;
  error : option string;
  compileTimeout : option nat;
  pdfUrlRef : string
}.

(** The component in its environment: [localStorage], the object URLs,
    the pending [setTimeout] callbacks of [compileLatex] (each with the
    [savedDoc.content] it captured), and the compile requests that were
    sent and not answered yet. *)
Record World := {
  ui : State;
  window : DocumentService.Window;
  urls : Registry;
  timers : gmap nat string;
  nextTimer : nat;
  inflight : gmap nat string;
  issued : nat
}.

Definition with_ui (f : State -> State) (w : World) : World :=
  {| ui := f (ui w); window := window w; urls := urls w; timers := timers w;
     nextTimer := nextTimer w; inflight := inflight w; issued := issued w |}.

Definition setIsSaving (b : bool) (s : State) : State :=
  {| document := document s; title := title s; content := content s;
     isSaving := b; isNew := isNew s; pdfUrl := pdfUrl s;
     isCompiling := isCompiling s; error := error s;
     compileTimeout := compileTimeout s; pdfUrlRef := pdfUrlRef s |}.

Definition setIsCompiling (b : bool) (s : State) : State :=
  {| document := document s; title := title s; content := content s;
     isSaving := isSaving s; isNew := isNew s; pdfUrl := pdfUrl s;
     isCompiling := b; error := error s;
     compileTimeout := compileTimeout s; pdfUrlRef := pdfUrlRef s |}.

Definition setError (e : option string) (s : State) : State :=
  {| document := document s; title := title s; content := content s;
     isSaving := isSaving s; isNew := isNew s; pdfUrl := pdfUrl s;
     isCompiling := isCompiling s; error := e;
     compileTimeout := compileTimeout s; pdfUrlRef := pdfUrlRef s |}.

(** [setDocument(savedDoc); setIsNew(false)] *)
Definition setSaved (d : Json) (s : State) : State :=
  {| document := Some d; title := title s; content := content s;
     isSaving := isSaving s; isNew := false; pdfUrl := pdfUrl s;
     isCompiling := isCompiling s; error := error s;
     compileTimeout := compileTimeout s; pdfUrlRef := pdfUrlRef s |}.

(** [pdfUrlRef.current = url; setPdfUrl(url)] *)
Definition setPdf (url : string) (s : State) : State :=
  {| document := document s; title := title s; content := content s;
     isSaving := isSaving s; isNew := isNew s; pdfUrl := url;
     isCompiling := isCompiling s; error := error s;
     compileTimeout := compileTimeout s; pdfUrlRef := url |}.

Definition setCompileTimeout (t : option nat) (s : State) : State :=
  {| document := document s; title := title s; content := content s;
     isSaving := isSaving s; isNew := isNew s; pdfUrl := pdfUrl s;
     isCompiling := isCompiling s; error := error s;
     compileTimeout := t; pdfUrlRef := pdfUrlRef s |}.

(** What [saveCurrentDocument] resolves to. *)
Inductive SaveResult :=
| Undefined                  (* the early [return;] *)
| Null                       (* [return null] of the [catch] *)
| Saved (savedDoc : Json).

(** [document?.id] *)
Definition document_id (s : State) : option string :=
  match document s with
  | Some d => string_field "id" d
  | None => None
  end.

(** [{ id: document?.id, title: title || 'Untitled Document', content }] *)
Definition docToSave (s : State) : DocumentService.DocInput :=
  {| DocumentService.in_id := document_id s;
     DocumentService.in_title :=
       if is_empty (title s) then "Untitled Document" else title s;
     DocumentService.in_content := content s |}.

Section WithRuntime.
Context (js : Runtime).

(** [saveCurrentDocument()] *)
Definition saveCurrentDocument (clock : DocumentService.Clock) (w : World)
  : SaveResult * World :=
  if is_empty (content (ui w)) then (Undefined, w)
  else
    let w1 := with_ui (setIsSaving true) w in
    match DocumentService.saveDocument js clock (docToSave (ui w)) (window w1) with
    | (Ok savedDoc, win) =>
        (Saved savedDoc,
         with_ui (fun s => setIsSaving false (setSaved savedDoc s))
           {| ui := ui w1; window := win; urls := urls w1; timers := timers w1;
              nextTimer := nextTimer w1; inflight := inflight w1;
              issued := issued w1 |})
    | (Throw _, win) =>
        (Null,
         with_ui (fun s => setIsSaving false
                             (setError (Some "Failed to save document") s))
           {| ui := ui w1; window := win; urls := urls w1; timers := timers w1;
              nextTimer := nextTimer w1; inflight := inflight w1;
              issued := issued w1 |})
    end.

(** [clearTimeout(id)] *)
Definition clearTimeout (id : nat) (w : World) : World :=
  {| ui := ui w; window := window w; urls := urls w;
     timers := delete id (timers w); nextTimer := nextTimer w;
     inflight := inflight w; issued := issued w |}.

(** [compileTimeout.current = setTimeout(callback, 500)], the callback
    holding [payload] for its request. *)
Definition setTimeout (payload : string) (w : World) : World :=
  {| ui := setCompileTimeout (Some (nextTimer w)) (ui w); window := window w;
     urls := urls w; timers := <[nextTimer w := payload]> (timers w);
     nextTimer := S (nextTimer w); inflight := inflight w; issued := issued w |}.

(** [compileLatex()]: everything it does before its timer fires. *)
Definition compileLatex (clock : DocumentService.Clock) (w : World) : World :=
  if is_empty (content (ui w)) then w
  else
    let w1 := with_ui (fun s => setError None (setIsCompiling true s)) w in
    let w2 := match compileTimeout (ui w1) with
              | Some id => clearTimeout id w1
              | None => w1
              end in
    match saveCurrentDocument clock w2 with
    | (Saved savedDoc, w3) =>
        setTimeout (match string_field "content" savedDoc with
                    | Some c => c
                    | None => "undefined"
                    end) w3
    | (_, w3) => with_ui (setIsCompiling false) w3
    end.

(** The timer [id] fires: the callback sends its request. *)
Definition timer_fire (id : nat) (w : World) : World :=
  match timers w !! id with
  | Some payload =>
      {| ui := ui w; window := window w; urls := urls w;
         timers := delete id (timers w); nextTimer := nextTimer w;
         inflight := <[issued w := payload]> (inflight w);
         issued := S (issued w) |}
  | None => w
  end.

(** The [try] block of the callback after its [await fetch(...)]. *)
Definition decode_response (outcome : Http.FetchOutcome) : result string :=
  match outcome with
  | Http.Rejected message => Throw message
  | Http.Responded ok body =>
      if ok then
        atob js (match Http.pdf body with Some b64 => b64 | None => "undefined" end)
      else Throw "Failed to compile LaTeX"
  end.

(** The callback from the point where its [fetch] settles. *)
Definition compile_settle (outcome : Http.FetchOutcome) (w : World) : World :=
  match decode_response outcome with
  | Ok blob =>
      let r1 := revoke_if_set (pdfUrlRef (ui w)) (urls w) in
      let '(url, r2) := createObjectURL blob r1 in
      with_ui (fun s => setIsCompiling false (setPdf url s))
        {| ui := ui w; window := window w; urls := r2; timers := timers w;
           nextTimer := nextTimer w; inflight := inflight w;
           issued := issued w |}
  | Throw _ =>
      with_ui (fun s => setIsCompiling false
                 (setError (Some "Failed to compile LaTeX. Please check your syntax.") s))
        w
  end.

Inductive Event :=
| CompileLatex (clock : DocumentService.Clock)
| TimerFires (id : nat)
| Resolve (seq : nat) (outcome : Http.FetchOutcome).

Definition step (e : Event) (w : World) : World :=
  match e with
  | CompileLatex clock => compileLatex clock w
  | TimerFires id => timer_fire id w
  | Resolve seq outcome =>
      match inflight w !! seq with
      | Some _ =>
          compile_settle outcome
            {| ui := ui w; window := window w; urls := urls w;
               timers := timers w; nextTimer := nextTimer w;
               inflight := delete seq (inflight w); issued := issued w |}
      | None => w
      end
  end.

Definition run (events : list Event) (w : World) : World :=
  fold_left (fun w e => step e w) events w.

End WithRuntime.

(** The blob behind [pdfUrl]: what an [iframe] on that URL loads.
    Whether the [iframe] is rendered at all is [render]. *)
Definition shown_pdf (w : World) : option string :=
  live (urls w) !! pdfUrl (ui w).

(** What the component renders of its compile state: a spinner alone
    while [content] is empty; otherwise the page, with the error banner
    above the panes when [error] is set and, in the preview pane, the
    [iframe] when [pdfUrl] is set. *)
Inductive Page :=
| Loading
| Shown (banner : option string) (frame : option string).

Definition render (s : State) : Page :=
  if is_empty (content s) then Loading
  else Shown (truthy (error s))
             (if is_empty (pdfUrl s) then None
              else Some (iframe_src (pdfUrl s))).

(** [saveDocument]'s search finds a stored document whose [id] is [id]:
    one has it, and no [null] entry comes before it. *)
Definition stored (js : Runtime) (id : string) (w : World) : bool :=
  match DocumentService.findIndex id (DocumentService.docs_of js (window w)) with
  | Ok (Some _) => true
  | _ => false
  end.

(** The timers that are pending once [compileLatex] has cleared the one
    it remembered. *)
Definition timers_cleared (w : World) : gmap nat string :=
  match compileTimeout (ui w) with
  | Some id => delete id (timers w)
  | None => timers w
  end.

(** *** Unmounting *)

(** The clean-up on unmount: the object URL is revoked and the compile
    timer cleared, each if its ref is set. *)
Definition unmount (w : World) : World :=
  {| ui := ui w; window := window w;
     urls := revoke_if_set (pdfUrlRef (ui w)) (urls w);
     timers := timers_cleared w; nextTimer := nextTimer w;
     inflight := inflight w; issued := issued w |}.

(** The resources of the component are accounted for: the only object
    URL that can be live is the one [pdfUrlRef] holds, which is the one
    shown, and the only timer that can be pending is the one
    [compileTimeout] holds. *)
Definition tidy (w : World) : Prop :=
  (forall url, is_Some (live (urls w) !! url) ->
               url = pdfUrlRef (ui w) /\ is_empty url = false)
  /\ pdfUrl (ui w) = pdfUrlRef (ui w)
  /\ (forall id, is_Some (timers w !! id) -> compileTimeout (ui w) = Some id).

End DocumentEditor.

(** A runtime for the examples: [atob] decodes base64, and the JSON
    functions know the one text the examples store, the empty array. *)
Definition example_runtime : Runtime :=
  {| JSON_parse := fun s =>
       if String.eqb s "[]" then Ok (JArray [])
       else Throw "Unexpected token in JSON";
     JSON_stringify := fun j =>
       match j with JArray [] => "[]" | _ => "[...]" end;
     atob := Base64.base64_decode |}.

(** A runtime for a store that goes from one state to the next: the
    text ["before"] reads as [before], every value is written as the
    text ["after"], and that text reads as [after]. *)
Definition replay_runtime (before after : Json) : Runtime :=
  {| JSON_parse := fun s =>
       if String.eqb s "before" then Ok before else Ok after;
     JSON_stringify := fun _ => "after";
     atob := Base64.base64_decode |}.

(** Two stored documents for the examples. *)
Definition stored_a : Json :=
  JObject [("id", JString "doc_1"); ("title", JString "A");
           ("content", JString "alpha");
           ("createdAt", JString "2023-12-31T00:00:00.000Z");
           ("updatedAt", JString "2023-12-31T00:00:00.000Z")].

Definition stored_b : Json :=
  JObject [("id", JString "doc_2"); ("title", JString "B");
           ("content", JString "beta");
           ("createdAt", JString "2023-12-31T00:00:00.000Z");
           ("updatedAt", JString "2023-12-31T00:00:00.000Z")].

Definition example_clock : DocumentService.Clock :=
  {| DocumentService.nowIso := "2024-01-01T00:00:00.000Z";
     DocumentService.nowMs := 1704067200000 |}.

(** The document editor on a document that was loaded as [doc], with an
    empty [localStorage]. *)
Definition example_editor (doc : option Json) : DocumentEditor.World :=
  {| DocumentEditor.ui :=
       {| DocumentEditor.document := doc;
          DocumentEditor.title := "Notes";
          DocumentEditor.content := "\documentclass{article}";
          DocumentEditor.isSaving := false;
          DocumentEditor.isNew := false;
          DocumentEditor.pdfUrl := "";
          DocumentEditor.isCompiling := false;
          DocumentEditor.error := None;
          DocumentEditor.compileTimeout := None;
          DocumentEditor.pdfUrlRef := "" |};
     DocumentEditor.window := DocumentService.Storage ∅;
     DocumentEditor.urls := {| ObjectUrl.live := ∅; ObjectUrl.minted := 0 |};
     DocumentEditor.timers := ∅;
     DocumentEditor.nextTimer := 1;
     DocumentEditor.inflight := ∅;
     DocumentEditor.issued := 0 |}.

(** The same editor in a browser without a usable [localStorage]. *)
Definition offline_editor (doc : option Json) : DocumentEditor.World :=
  {| DocumentEditor.ui := DocumentEditor.ui (example_editor doc);
     DocumentEditor.window := DocumentService.Blocked "SecurityError";
     DocumentEditor.urls := {| ObjectUrl.live := ∅; ObjectUrl.minted := 0 |};
     DocumentEditor.timers := ∅;
     DocumentEditor.nextTimer := 1;
     DocumentEditor.inflight := ∅;
     DocumentEditor.issued := 0 |}.

(** A document that was loaded earlier and is no longer in the store. *)
Definition lost_document : Json :=
  JObject [("id", JString "doc_1"); ("title", JString "Notes");
           ("content", JString "old");
           ("createdAt", JString "2023-12-31T00:00:00.000Z");
           ("updatedAt", JString "2023-12-31T00:00:00.000Z")].

(** * Proofs *)

(** ** Strings *)

Lemma append_assoc (a b c : string) : (a ++ b) ++ c = a ++ (b ++ c).
Proof. induction a as [|x a IH]; simpl; [reflexivity | now rewrite IH]. Qed.

Lemma append_empty_r (a : string) : a ++ "" = a.
Proof. induction a as [|x a IH]; simpl; [reflexivity | now rewrite IH]. Qed.

Lemma length_append (a b : string) :
  String.length (a ++ b) = String.length a + String.length b.
Proof. induction a as [|x a IH]; simpl; [reflexivity | now rewrite IH]. Qed.

Lemma strip_prefix_app lit s r : strip_prefix lit s = Some r -> s = lit ++ r.
Proof.
  revert s; induction lit as [|a lit IH]; intros s H; simpl in *.
  - now inversion H.
  - destruct s as [|b s]; [discriminate|].
    destruct (Ascii.eqb_spec a b) as [->|]; [|discriminate].
    now rewrite (IH _ H).
Qed.

Lemma span_app p s a b : span p s = (a, b) -> s = a ++ b.
Proof.
  revert a b; induction s as [|c s IH]; intros a b H; simpl in *.
  - now inversion H.
  - destruct (p c).
    + destruct (span p s) as [a' b'] eqn:E. inversion H; subst.
      simpl. now rewrite (IH _ _ eq_refl).
    + now inversion H.
Qed.

Lemma span_all p s a b : span p s = (a, b) -> all_chars p a = true.
Proof.
  revert a b; induction s as [|c s IH]; intros a b H; simpl in *.
  - now inversion H.
  - destruct (p c) eqn:E.
    + destruct (span p s) as [a' b'] eqn:E'. inversion H; subst.
      simpl. now rewrite E, (IH _ _ eq_refl).
    + now inversion H.
Qed.

(** Equations between strings that differ by the bracketing of [++]. *)
Ltac string_assoc := simpl; rewrite ?append_assoc; simpl; reflexivity.

(** ** The segmenter *)

Section SegmenterFacts.
Import Segmenter.

(* Character tests stay folded under [simpl]. *)
#[local] Arguments Ascii.eqb : simpl never.

Lemma until_lit_app close s body r :
  until_lit close s = Some (body, r) -> s = body ++ close ++ r.
Proof.
  revert body r; induction s as [|c s IH]; intros body r H.
  - simpl in H. destruct (strip_prefix close "") eqn:E; [|discriminate].
    inversion H; subst. simpl. now apply strip_prefix_app.
  - simpl in H. destruct (strip_prefix close (String c s)) eqn:E.
    + inversion H; subst. change (String c s = close ++ r).
      now apply strip_prefix_app.
    + destruct (until_lit close s) as [[b' r']|] eqn:E'; [|discriminate].
      inversion H; subst. simpl. now rewrite (IH _ _ eq_refl).
Qed.

Lemma alt_display_dollar_app s m r :
  alt_display_dollar s = Some (m, r) ->
  s = m ++ r /\ exists body, m = "$$" ++ body ++ "$$".
Proof.
  unfold alt_display_dollar. intros H.
  destruct (strip_prefix "$$" s) as [s1|] eqn:E1; [|discriminate].
  destruct (span not_dollar s1) as [body s2] eqn:E2.
  destruct (strip_prefix "$$" s2) as [rest|] eqn:E3; [|discriminate].
  inversion H; subst.
  apply strip_prefix_app in E1, E3. apply span_app in E2. subst.
  split; [string_assoc | now exists body].
Qed.

Lemma alt_bracketed_app open close s m r :
  alt_bracketed open close s = Some (m, r) ->
  s = m ++ r /\ exists body, m = open ++ body ++ close.
Proof.
  unfold alt_bracketed. intros H.
  destruct (strip_prefix open s) as [s1|] eqn:E1; [|discriminate].
  destruct (until_lit close s1) as [[body rest]|] eqn:E2; [|discriminate].
  inversion H; subst.
  apply strip_prefix_app in E1. apply until_lit_app in E2. subst.
  split; [string_assoc | now exists body].
Qed.

Lemma alt_inline_dollar_app s m r :
  alt_inline_dollar s = Some (m, r) ->
  s = m ++ r /\
  exists body, m = "$" ++ body ++ "$" /\ is_empty body = false
               /\ all_chars not_dollar_nl body = true.
Proof.
  unfold alt_inline_dollar. intros H.
  destruct (strip_prefix "$" s) as [s1|] eqn:E1; [|discriminate].
  destruct (span not_dollar_nl s1) as [body s2] eqn:E2.
  destruct (is_empty body) eqn:E0; [discriminate|].
  destruct (strip_prefix "$" s2) as [rest|] eqn:E3; [|discriminate].
  inversion H; subst.
  apply strip_prefix_app in E1, E3. pose proof (span_all _ _ _ _ E2) as Hall.
  apply span_app in E2. subst.
  split; [string_assoc | now exists body].
Qed.

(** A match is a prefix of the input and is not empty. *)
Lemma match_at_app s m r :
  match_at s = Some (m, r) -> s = m ++ r /\ is_empty m = false.
Proof.
  unfold match_at, or_else. intros H.
  destruct (alt_display_dollar s) as [[m1 r1]|] eqn:E1.
  { inversion H; subst. apply alt_display_dollar_app in E1 as [-> [b ->]]. now split. }
  destruct (alt_bracketed "\[" "\]" s) as [[m2 r2]|] eqn:E2.
  { inversion H; subst. apply alt_bracketed_app in E2 as [-> [b ->]]. now split. }
  destruct (alt_bracketed "\(" "\)" s) as [[m3 r3]|] eqn:E3.
  { inversion H; subst. apply alt_bracketed_app in E3 as [-> [b ->]]. now split. }
  apply alt_inline_dollar_app in H as [-> [b [-> _]]]. now split.
Qed.

(** [exec] cuts its input in three: skipped text, match, rest; and the
    rest is shorter than the input. *)
Lemma exec_app s skipped m r :
  exec s = Some (skipped, m, r) ->
  s = skipped ++ m ++ r /\ String.length r < String.length s.
Proof.
  revert skipped m r; induction s as [|c s IH]; intros skipped m r H.
  - vm_compute in H. discriminate.
  - simpl in H. destruct (match_at (String c s)) as [[m' r']|] eqn:E.
    + inversion H; subst. apply match_at_app in E as [E Hm].
      split; [exact E|]. rewrite E, length_append.
      destruct m; [discriminate|]. simpl. lia.
    + destruct (exec s) as [[[sk' m'] r']|] eqn:E'; [|discriminate].
      inversion H; subst. destruct (IH _ _ _ eq_refl) as [-> Hlen].
      split; [reflexivity|]. simpl in *. lia.
Qed.

Lemma split_loop_joined fuel s :
  String.length s < fuel -> joined (split_loop fuel s) = s.
Proof.
  revert s; induction fuel as [|fuel IH]; intros s Hlen; [lia|].
  simpl. destruct (exec s) as [[[skipped m] r]|] eqn:E.
  - apply exec_app in E as [-> Hr].
    assert (Hrest : joined (split_loop fuel r) = r) by (apply IH; lia).
    destruct skipped; simpl; now rewrite Hrest.
  - destruct s; simpl; [reflexivity|]. now rewrite append_empty_r.
Qed.

(** C2. For every input, the contents of the parts the segmenter
    produces, concatenated in output order, are the input itself. *)
Theorem parts_lossless (code : string) : joined (parts code) = code.
Proof. unfold parts. apply split_loop_joined. lia. Qed.

(** The loop does not depend on the fuel once there is enough of it. *)
Lemma split_loop_fuel n k s :
  String.length s < n -> String.length s < k -> split_loop n s = split_loop k s.
Proof.
  revert k s; induction n as [|n IH]; intros k s Hn Hk; [lia|].
  destruct k as [|k]; [lia|]. simpl.
  destruct (exec s) as [[[skipped m] r]|] eqn:E; [|reflexivity].
  apply exec_app in E as [_ Hr]. f_equal. f_equal. apply IH; lia.
Qed.

(** One iteration of the loop, as an equation on [parts]. *)
Lemma parts_unfold s :
  parts s =
  match exec s with
  | Some (skipped, m, rest) =>
      ((if is_empty skipped then []
        else [{| type := text; content := skipped |}])
       ++ {| type := math; content := m |} :: parts rest)%list
  | None => if is_empty s then [] else [{| type := text; content := s |}]
  end.
Proof.
  unfold parts at 1. simpl.
  destruct (exec s) as [[[skipped m] r]|] eqn:E; [|reflexivity].
  apply exec_app in E as [_ Hr]. f_equal. f_equal.
  unfold parts. apply split_loop_fuel; lia.
Qed.

(** What the loop has produced when it stands at [s], and what it will
    produce from there. *)
Lemma scan_at_parts code s :
  scan_at code s ->
  exists done, parts code = (done ++ parts s)%list /\ code = joined done ++ s.
Proof.
  induction 1 as [|s skipped m rest Hs [done [IH1 IH2]] He].
  - exists []. now split.
  - pose proof (exec_app _ _ _ _ He) as [Hcut _].
    exists (done ++ (if is_empty skipped then []
                     else [{| type := text; content := skipped |}])
                 ++ [{| type := math; content := m |}])%list.
    split.
    + rewrite IH1, (parts_unfold s), He. now rewrite <- !app_assoc.
    + rewrite IH2, Hcut. clear.
      induction done as [|d done IH]; simpl.
      * destruct skipped; simpl; rewrite ?append_empty_r; string_assoc.
      * rewrite !append_assoc. now rewrite IH.
Qed.

(** Where nothing matches at the head of [s], [exec] moves on by one
    character. *)
Lemma exec_skip c s :
  match_at (String c s) = None ->
  exec (String c s) =
  match exec s with
  | Some (skipped, m, rest) => Some (String c skipped, m, rest)
  | None => None
  end.
Proof. intros H. simpl. now rewrite H. Qed.

Lemma exec_skip_pre pre s :
  no_match_within pre s = true ->
  exec (pre ++ s) =
  match exec s with
  | Some (skipped, m, rest) => Some (pre ++ skipped, m, rest)
  | None => None
  end.
Proof.
  induction pre as [|c pre IH]; intros H.
  - simpl. now destruct (exec s) as [[[? ?] ?]|].
  - simpl in H. change (String c pre ++ s) with (String c (pre ++ s)) in *.
    destruct (match_at (String c (pre ++ s))) eqn:E; [discriminate|].
    rewrite (exec_skip _ _ E), (IH H).
    now destruct (exec s) as [[[? ?] ?]|].
Qed.

(** After an unterminated dollar the body of the single-dollar
    alternative is not followed by a closing dollar. *)
Lemma unterminated_no_close rest body s2 :
  unterminated rest = true -> span not_dollar_nl rest = (body, s2) ->
  strip_prefix "$" s2 = None.
Proof.
  revert body s2; induction rest as [|c rest IH]; intros body s2 Hu Hs; simpl in *.
  - now inversion Hs.
  - unfold not_dollar_nl in Hs at 1.
    destruct (Ascii.eqb c dollar) eqn:Ed; [discriminate|].
    destruct (Ascii.eqb c newline) eqn:En; simpl in Hs.
    + inversion Hs; subst. simpl. unfold dollar in Ed.
      rewrite Ascii.eqb_sym. now rewrite Ed.
    + destruct (span not_dollar_nl rest) as [b' s'] eqn:E. inversion Hs; subst.
      now apply (IH b').
Qed.

(** No math part begins at an unterminated dollar. *)
Lemma unterminated_no_match rest :
  unterminated rest = true -> match_at ("$" ++ rest) = None.
Proof.
  intros Hu. unfold match_at, or_else.
  assert (H1 : alt_display_dollar ("$" ++ rest) = None).
  { unfold alt_display_dollar. destruct rest as [|c rest]; [reflexivity|].
    simpl in Hu |- *. fold dollar.
    destruct (Ascii.eqb c dollar) eqn:Ed; [discriminate|].
    rewrite Ascii.eqb_sym. now rewrite Ed. }
  assert (H4 : alt_inline_dollar ("$" ++ rest) = None).
  { unfold alt_inline_dollar.
    change (strip_prefix "$" ("$" ++ rest)) with (Some rest). cbv beta iota.
    destruct (span not_dollar_nl rest) as [body s2] eqn:Es.
    destruct (is_empty body); [reflexivity|].
    now rewrite (unterminated_no_close _ _ _ Hu Es). }
  rewrite H1, H4. reflexivity.
Qed.

(** Every math part is a match of the pattern. *)
Lemma exec_match s skipped m r :
  exec s = Some (skipped, m, r) -> exists s', match_at s' = Some (m, r).
Proof.
  revert skipped; induction s as [|c s IH]; intros skipped H.
  - vm_compute in H. discriminate.
  - simpl in H. destruct (match_at (String c s)) as [[m' r']|] eqn:E.
    + inversion H; subst. eauto.
    + destruct (exec s) as [[[sk' m'] r']|] eqn:E'; [|discriminate].
      inversion H; subst. eauto.
Qed.

Lemma split_loop_math fuel s p :
  In p (split_loop fuel s) -> type p = math ->
  exists s' r, match_at s' = Some (content p, r).
Proof.
  revert s; induction fuel as [|fuel IH]; intros s Hin Hty; [contradiction|].
  simpl in Hin. destruct (exec s) as [[[skipped m] r]|] eqn:E.
  - apply in_app_or in Hin as [Hin|[<-|Hin]].
    + destruct (is_empty skipped); [contradiction|].
      destruct Hin as [<-|[]]. discriminate.
    + simpl. destruct (exec_match _ _ _ _ E) as [s' Hs']. eauto.
    + eauto.
  - destruct (is_empty s); [contradiction|].
    destruct Hin as [<-|[]]. discriminate.
Qed.

Lemma all_chars_no_newline body :
  all_chars not_dollar_nl body = true -> occurs newline (body ++ "$") = false.
Proof.
  induction body as [|c body IH]; simpl; [reflexivity|].
  unfold not_dollar_nl at 1. intros H.
  apply andb_true_iff in H as [H1 H2]. apply andb_true_iff in H1 as [_ Hn].
  apply negb_true_iff in Hn. rewrite Hn. simpl. now apply IH.
Qed.

(** A math part that opens with one dollar holds no line break. *)
Lemma single_dollar_one_line code p :
  In p (parts code) -> single_dollar_math p = true ->
  occurs newline (content p) = false.
Proof.
  intros Hin Hs. unfold single_dollar_math in Hs.
  destruct (type p) eqn:Ety; [discriminate|].
  destruct (split_loop_math _ _ _ Hin Ety) as [s' [r Hm]].
  apply andb_true_iff in Hs as [Hs1 Hs2]. apply negb_true_iff in Hs2.
  revert Hm. unfold match_at, or_else.
  destruct (alt_display_dollar s') as [[m1 r1]|] eqn:E1.
  { intros Hm; inversion Hm; subst.
    apply alt_display_dollar_app in E1 as [_ [b Hb]].
    rewrite Hb in Hs2. discriminate. }
  destruct (alt_bracketed "\[" "\]" s') as [[m2 r2]|] eqn:E2.
  { intros Hm; inversion Hm; subst.
    apply alt_bracketed_app in E2 as [_ [b Hb]].
    rewrite Hb in Hs1. discriminate. }
  destruct (alt_bracketed "\(" "\)" s') as [[m3 r3]|] eqn:E3.
  { intros Hm; inversion Hm; subst.
    apply alt_bracketed_app in E3 as [_ [b Hb]].
    rewrite Hb in Hs1. discriminate. }
  intros Hm. apply alt_inline_dollar_app in Hm as [_ [b [Hb [_ Hall]]]].
  rewrite Hb. simpl. now apply all_chars_no_newline.
Qed.

(** C8, as the code has it.  When the scan stands before an unterminated
    single dollar (no closing dollar before the end of the input or
    before a line break) and no match begins in the text [pre] that
    precedes it, the dollar is not dropped and opens no math part: with
    [pre] it begins one text part, which runs to the next match of the
    pattern, or to the end of the input when there is none.  And a math
    part that opens with a single dollar never holds a line break. *)
Theorem unterminated_dollar_is_text (code pre rest : string) :
  scan_at code (pre ++ "$" ++ rest) ->
  no_match_within pre ("$" ++ rest) = true ->
  unterminated rest = true ->
  (exists done,
      parts code = (done ++ parts_from_dollar pre rest)%list
      /\ code = joined done ++ pre ++ "$" ++ rest)
  /\ (forall p, In p (parts code) -> single_dollar_math p = true ->
                occurs newline (content p) = false).
Proof.
  intros Hscan Hpre Hu. split; [|intros p; apply single_dollar_one_line].
  destruct (scan_at_parts _ _ Hscan) as [done [Hparts Hcode]].
  exists done. split; [|exact Hcode].
  rewrite Hparts. f_equal.
  rewrite parts_unfold, (exec_skip_pre _ _ Hpre).
  change ("$" ++ rest) with (String "$" rest).
  rewrite (exec_skip _ _ (unterminated_no_match _ Hu)).
  unfold parts_from_dollar.
  destruct (exec rest) as [[[skipped m] after]|].
  - replace (is_empty (pre ++ String "$" skipped)) with false
      by (now destruct pre).
    reflexivity.
  - replace (is_empty (pre ++ String "$" rest)) with false
      by (now destruct pre).
    reflexivity.
Qed.

(** The spec's own example of C8 holds: nothing but text after [$y]. *)
Example unterminated_y :
  parts "a $y and more" = [{| type := text; content := "a $y and more" |}].
Proof. reflexivity. Qed.

(** C8 as stated fails: after an unterminated dollar, later delimiters
    still open math parts.  In ["$ \(x\)"] the dollar has no closing
    dollar before the end of the input, and in the second input a line
    break comes before the next dollar; both remainders hold a math
    part. *)
Lemma unterminated_remainder_has_math :
  unterminated " \(x\)" = true
  /\ parts "$ \(x\)" =
       [{| type := text; content := "$ " |};
        {| type := math; content := "\(x\)" |}]
  /\ unterminated ("a" ++ String newline "$b$") = true
  /\ parts ("$a" ++ String newline "$b$") =
       [{| type := text; content := "$a" ++ String newline "" |};
        {| type := math; content := "$b$" |}].
Proof. repeat split; reflexivity. Qed.

Lemma unterminated_dollar_is_text_witness :
  exists done,
    parts "\(u\) x $ \(x\)"
    = (done ++ parts_from_dollar " x " " \(x\)")%list
    /\ "\(u\) x $ \(x\)" = joined done ++ " x " ++ "$" ++ " \(x\)".
Proof.
  apply (unterminated_dollar_is_text "\(u\) x $ \(x\)" " x " " \(x\)").
  - apply (scan_next _ "\(u\) x $ \(x\)" "" "\(u\)" " x $ \(x\)").
    + apply scan_start.
    + reflexivity.
  - reflexivity.
  - reflexivity.
Defined.

(** *** The HTML of text parts *)

Lemma replace_all_app c b x y :
  replace_all c b (x ++ y) = replace_all c b x ++ replace_all c b y.
Proof.
  induction x as [|a x IH]; simpl; [reflexivity|].
  destruct (Ascii.eqb a c); rewrite IH; [now rewrite append_assoc | reflexivity].
Qed.

Lemma replace_all_cons c b a s :
  replace_all c b (String a s) =
  (if Ascii.eqb a c then b else String a "") ++ replace_all c b s.
Proof. simpl. now destruct (Ascii.eqb a c). Qed.

Lemma replace_all_other c b a :
  Ascii.eqb a c = false -> replace_all c b (String a "") = String a "".
Proof. intros H. simpl. now rewrite H. Qed.

(** The four passes together act on every character by itself. *)
Lemma escape_text_cons a s :
  escape_text (String a s) = escape_char a ++ escape_text s.
Proof.
  unfold escape_text, escape_char.
  rewrite (replace_all_cons "&"), !replace_all_app. f_equal.
  destruct (Ascii.eqb a "&") eqn:E1; [reflexivity|].
  destruct (Ascii.eqb a "<") eqn:E2.
  { apply Ascii.eqb_eq in E2; subst. reflexivity. }
  rewrite (replace_all_other "<" _ a E2).
  destruct (Ascii.eqb a ">") eqn:E3.
  { apply Ascii.eqb_eq in E3; subst. reflexivity. }
  rewrite (replace_all_other ">" _ a E3).
  destruct (Ascii.eqb a newline) eqn:E4.
  { apply Ascii.eqb_eq in E4; subst. reflexivity. }
  now rewrite (replace_all_other newline _ a E4).
Qed.

Lemma escape_text_flat_map s :
  escape_text s = flat_map_string escape_char s.
Proof.
  induction s as [|a s IH]; [reflexivity|].
  rewrite escape_text_cons. simpl. now rewrite IH.
Qed.

Lemma escape_char_markup_free c :
  c <> newline -> markup_free (escape_char c) = true.
Proof.
  intros Hc. unfold escape_char.
  destruct (Ascii.eqb c "&") eqn:E1; [reflexivity|].
  destruct (Ascii.eqb c "<") eqn:E2; [reflexivity|].
  destruct (Ascii.eqb c ">") eqn:E3; [reflexivity|].
  destruct (Ascii.eqb c newline) eqn:E4.
  { apply Ascii.eqb_eq in E4. contradiction. }
  unfold markup_free. simpl. now rewrite E2, E3.
Qed.

Lemma fold_left_html {A} (f : A -> string) (l : list A) (acc : string) :
  fold_left (fun html p => html ++ f p) l acc = acc ++ concat_strings (map f l).
Proof.
  revert acc; induction l as [|x l IH]; intros acc; simpl.
  - now rewrite append_empty_r.
  - rewrite IH. now rewrite append_assoc.
Qed.

(** C10. The preview is the concatenation of what each part renders to,
    in order, and a text part renders to its content with every
    character escaped: [&], [<] and [>] become their entities and a line
    break becomes [<br>]; no other character of a text part puts a [<]
    or a [>] into the HTML. *)
Theorem text_parts_are_escaped (katex : Katex) (code : string) :
  processLatex (Some katex) code
  = concat_strings (map (render_part katex) (parts code))
  /\ (forall p, In p (parts code) -> type p = text ->
        render_part katex p = flat_map_string escape_char (content p))
  /\ escape_char "&" = "&amp;" /\ escape_char "<" = "&lt;"
  /\ escape_char ">" = "&gt;" /\ escape_char newline = "<br>"
  /\ (forall c, c <> newline -> markup_free (escape_char c) = true).
Proof.
  split; [|split].
  - unfold processLatex. now rewrite fold_left_html.
  - intros p _ Hty. unfold render_part. rewrite Hty.
    apply escape_text_flat_map.
  - repeat split; try reflexivity. apply escape_char_markup_free.
Qed.

Example processLatex_escapes :
  processLatex (Some {| renderToString := None |}) "a<b> & $x$"
  = "a&lt;b&gt; &amp; \($x$\)".
Proof. reflexivity. Qed.

End SegmenterFacts.

(** ** The document store *)

Section DocumentServiceFacts.
Import DocumentService.
Context (js : Runtime).

(** What [getDocuments] returns, by the state of the store. *)
Lemma getDocuments_cases (w : Window) :
  getDocuments js w =
  Ok match safe_getItem w DOCUMENTS_KEY with
     | None => []
     | Some docsJson =>
         if is_empty docsJson then []
         else match JSON_parse js docsJson with
              | Ok (JArray items) => items
              | _ => []
              end
     end.
Proof.
  unfold getDocuments, getDocuments_try.
  destruct (safe_getItem w DOCUMENTS_KEY) as [docsJson|]; [|reflexivity].
  destruct (is_empty docsJson); [reflexivity|].
  destruct (JSON_parse js docsJson) as [[]|]; reflexivity.
Qed.

(** C9. [getDocuments] never throws: in every state of the store it
    returns a list, and the list is empty when the key is absent (or the
    storage is unavailable), when the stored text is not valid JSON, and
    when it is JSON for something that is not an array. *)
Theorem getDocuments_total (w : Window) :
  exists docs,
    getDocuments js w = Ok docs
    /\ (safe_getItem w DOCUMENTS_KEY = None -> docs = [])
    /\ (forall docsJson message,
          safe_getItem w DOCUMENTS_KEY = Some docsJson ->
          JSON_parse js docsJson = Throw message -> docs = [])
    /\ (forall docsJson parsed,
          safe_getItem w DOCUMENTS_KEY = Some docsJson ->
          JSON_parse js docsJson = Ok parsed ->
          (forall items, parsed <> JArray items) -> docs = []).
Proof.
  eexists. split; [apply getDocuments_cases|].
  split; [|split].
  - intros ->. reflexivity.
  - intros v m -> Hp. rewrite Hp. now destruct (is_empty v).
  - intros v j -> Hp Hna. rewrite Hp. destruct (is_empty v); [reflexivity|].
    destruct j; try reflexivity. now destruct (Hna items).
Qed.

End DocumentServiceFacts.

(** ** Base64 *)

Section Base64Facts.
Import Base64.
#[local] Open Scope N_scope.






















(** The test vectors of RFC 4648. *)
Example base64_encode_vectors :
  map base64_encode [EmptyString; "f"; "fo"; "foo"; "foob"; "fooba"; "foobar"]
  = [EmptyString; "Zg=="; "Zm8="; "Zm9v"; "Zm9vYg=="; "Zm9vYmE="; "Zm9vYmFy"].
Proof. vm_compute. reflexivity. Qed.

End Base64Facts.

(** ** The compile endpoint *)

Section CompileRouteFacts.
Import Http Base64 CompileRoute.

(** C7. A request whose [content] is missing or empty is answered with
    status 400 and an error message, and the handler touches nothing: no
    file is written and no process is spawned. *)
Theorem POST_rejects_empty_content (tempDir : string) (nowMs : Z)
  (run : ToolRun) (content : option string) (d : Disk) :
  content = None \/ content = Some "" ->
  POST tempDir nowMs run (Body content) d
  = ({| status := 400; body := error_body "No content provided" |}, d)
  /\ spawned (snd (POST tempDir nowMs run (Body content) d)) = spawned d
  /\ files (snd (POST tempDir nowMs run (Body content) d)) = files d.
Proof. intros [-> | ->]; repeat split. Qed.

Lemma POST_rejects_empty_content_witness :
  POST "/tmp" 1700000000000
    {| exit_code := 0; errorOutput := ""; output := "";
       written := [(".pdf", "%PDF")] |}
    (Body (Some "")) {| files := ∅; trace := [] |}
  = ({| status := 400; body := error_body "No content provided" |},
     {| files := ∅; trace := [] |})
  /\ spawned (snd (POST "/tmp" 1700000000000
                     {| exit_code := 0; errorOutput := ""; output := "";
                        written := [(".pdf", "%PDF")] |}
                     (Body (Some "")) {| files := ∅; trace := [] |}))
     = spawned {| files := ∅; trace := [] |}
  /\ files (snd (POST "/tmp" 1700000000000
                   {| exit_code := 0; errorOutput := ""; output := "";
                      written := [(".pdf", "%PDF")] |}
                   (Body (Some "")) {| files := ∅; trace := [] |}))
     = files {| files := ∅; trace := [] |}.
Proof.
  apply (POST_rejects_empty_content "/tmp" 1700000000000 _ (Some "")).
  right. reflexivity.
Defined.

(** The response of [POST] when the source is not empty, by what the
    process did. *)
Lemma POST_compile_cases tempDir nowMs run source d :
  is_empty source = false ->
  fst (POST tempDir nowMs run (Body (Some source)) d) =
  if (exit_code run =? 0)%Z then
    match compiled_pdf tempDir nowMs run source d with
    | Some bytes => {| status := 200; body := success_body bytes |}
    | None =>
        {| status := 500;
           body := error_body ("ENOENT: no such file or directory, open '"
                               ++ outputFile_of tempDir nowMs ++ "'") |}
    end
  else
    {| status := 500;
       body := error_body ("LaTeX compilation failed: "
                           ++ or_string (errorOutput run) (output run)) |}.
Proof.
  intros Hs. unfold POST, truthy. rewrite Hs.
  fold (tempFile_of tempDir nowMs). fold (outputFile_of tempDir nowMs).
  unfold on_close, compiled_pdf.
  destruct (exit_code run =? 0)%Z; simpl; [|reflexivity].
  unfold readFile.
  match goal with
  | |- context [?m !! outputFile_of tempDir nowMs] =>
      destruct (m !! outputFile_of tempDir nowMs)
  end; reflexivity.
Qed.


(** A process that cannot be started leaves a request that has content
    without a response; the source file was written by then. *)
Lemma POST_launch_fails tempDir nowMs message source d :
  is_empty source = false ->
  let out := POST_launch tempDir nowMs (LaunchFails message)
               (Body (Some source)) d in
  fst out = None
  /\ files (snd out) !! tempFile_of tempDir nowMs = Some source.
Proof.
  intros Hs. unfold POST_launch, truthy. rewrite Hs. cbv zeta.
  fold (tempFile_of tempDir nowMs). split; [reflexivity|].
  simpl. apply lookup_insert_eq.
Qed.




(** The request of the examples when [pdflatex] is not installed: it is
    never answered, and its source file stays on disk. *)
Example POST_launch_failure_example :
  let out := POST_launch "/tmp" 17 (LaunchFails "spawn pdflatex ENOENT")
               (Body (Some "\documentclass{article}"))
               {| files := ∅; trace := [] |} in
  fst out = None
  /\ files (snd out) !! "/tmp/latex-17.tex" = Some "\documentclass{article}".
Proof. vm_compute. split; reflexivity. Qed.

(** [join] normalizes what it puts together. *)
Example join_examples :
  map (fun dir => join dir "latex-17.tex")
    ["/tmp"; "/"; "/tmp/"; "/tmp/a/.."; "/var//folders/./T"; "/.."; EmptyString;
     "."; "scratch"; "../up"; "a/../.."]
  = ["/tmp/latex-17.tex"; "/latex-17.tex"; "/tmp/latex-17.tex";
     "/tmp/latex-17.tex"; "/var/folders/T/latex-17.tex"; "/latex-17.tex";
     "latex-17.tex"; "latex-17.tex"; "scratch/latex-17.tex";
     "../up/latex-17.tex"; "../latex-17.tex"].
Proof. vm_compute. reflexivity. Qed.

Example POST_success_example :
  fst (POST "/tmp" 17
         {| exit_code := 0; errorOutput := ""; output := "";
            written := [(".log", "l"); (".aux", "a"); (".pdf", "%PDF-1.5")] |}
         (Body (Some "\documentclass{article}"))
         {| files := ∅; trace := [] |})
  = {| status := 200;
       body := {| pdf := Some "JVBERi0xLjU="; error := None |} |}.
Proof. vm_compute. reflexivity. Qed.

(** *** Scratch files *)

Lemma run_tool_keeps (tempFile path : string) (run : ToolRun) (d : Disk) :
  is_Some (files d !! path) -> is_Some (files (run_tool tempFile run d) !! path).
Proof.
  unfold run_tool. simpl. generalize (files d). clear d.
  induction (written run) as [|[ext data] l IH]; intros fs H; simpl; [exact H|].
  apply IH. destruct (decide (replace_ext ".tex" ext tempFile = path)) as [->|Hne].
  - rewrite lookup_insert_eq. eauto.
  - now rewrite lookup_insert_ne.
Qed.

(** On the path that resolves, the four [unlink] calls leave none of the
    request's files behind. *)
Lemma POST_success_cleans tempDir nowMs run source d bytes :
  is_empty source = false -> exit_code run = 0%Z ->
  compiled_pdf tempDir nowMs run source d = Some bytes ->
  let fs := files (snd (POST tempDir nowMs run (Body (Some source)) d)) in
  fs !! tempFile_of tempDir nowMs = None
  /\ fs !! outputFile_of tempDir nowMs = None
  /\ fs !! replace_ext ".pdf" ".log" (outputFile_of tempDir nowMs) = None
  /\ fs !! replace_ext ".pdf" ".aux" (outputFile_of tempDir nowMs) = None.
Proof.
  intros Hs Hc Hpdf. unfold POST, truthy. rewrite Hs.
  fold (tempFile_of tempDir nowMs). fold (outputFile_of tempDir nowMs).
  unfold on_close. rewrite Hc. simpl negb. cbv iota.
  unfold readFile. unfold compiled_pdf in Hpdf. rewrite Hpdf. simpl.
  repeat split; rewrite !lookup_delete_None; auto 6.
Qed.

(** On the paths that reject (the process fails, or its PDF is missing)
    nothing is unlinked: the source file written for the request is
    still on disk when the handler answers. *)
Lemma POST_failure_no_cleanup tempDir nowMs run source d :
  is_empty source = false ->
  exit_code run <> 0%Z \/ compiled_pdf tempDir nowMs run source d = None ->
  let d' := snd (POST tempDir nowMs run (Body (Some source)) d) in
  is_Some (files d' !! tempFile_of tempDir nowMs)
  /\ unlinked d' = unlinked d.
Proof.
  intros Hs Hfail. unfold POST, truthy. rewrite Hs.
  fold (tempFile_of tempDir nowMs). fold (outputFile_of tempDir nowMs).
  assert (Hkept : is_Some
            (files (spawn_pdflatex tempDir (tempFile_of tempDir nowMs) run
                      (writeFile (tempFile_of tempDir nowMs) source d))
             !! tempFile_of tempDir nowMs)).
  { unfold spawn_pdflatex. apply run_tool_keeps. simpl.
    rewrite lookup_insert_eq. eauto. }
  unfold on_close.
  destruct (exit_code run =? 0)%Z eqn:Hc; simpl negb; cbv iota.
  - destruct Hfail as [Hne | Hnone]; [apply Z.eqb_eq in Hc; contradiction|].
    unfold readFile. unfold compiled_pdf in Hnone. rewrite Hnone. simpl.
    split; [exact Hkept|]. unfold unlinked. simpl.
    rewrite !existsb_app. simpl. now rewrite !orb_false_r.
  - simpl. split; [exact Hkept|]. unfold unlinked. simpl.
    rewrite !existsb_app. simpl. now rewrite !orb_false_r.
Qed.

(** C4 at a failing compile.  The process exits with code 1 after it
    wrote its log: the handler answers 500 and unlinks nothing, so the
    source file and the log of the request stay in the temporary
    directory. *)
Theorem POST_failure_leaves_residue :
  let run := {| exit_code := 1; errorOutput := "";
                output := "! Undefined control sequence.";
                written := [(".log", "This is pdfTeX")] |} in
  let out := POST "/tmp" 1700000000000 run (Body (Some "\undefined"))
               {| files := ∅; trace := [] |} in
  fst out = {| status := 500;
               body := error_body
                 "LaTeX compilation failed: ! Undefined control sequence." |}
  /\ files (snd out) !! "/tmp/latex-1700000000000.tex" = Some "\undefined"
  /\ files (snd out) !! "/tmp/latex-1700000000000.log" = Some "This is pdfTeX"
  /\ unlinked (snd out) = false.
Proof. vm_compute. repeat split. Qed.

(** The same request when the process succeeds: nothing is left. *)
Example POST_success_leaves_nothing :
  let run := {| exit_code := 0; errorOutput := ""; output := "";
                written := [(".log", "l"); (".aux", "a"); (".pdf", "%PDF-1.5")] |} in
  files (snd (POST "/tmp" 1700000000000 run (Body (Some "\undefined"))
                {| files := ∅; trace := [] |})) = ∅.
Proof. vm_compute. reflexivity. Qed.

End CompileRouteFacts.

(** ** The two editors *)

Section EditorFacts.
Import ObjectUrl.
Context (js : Runtime).

Lemma fold_left_snoc {A B} (f : A -> B -> A) (l : list B) (x : B) (a : A) :
  fold_left f (l ++ [x])%list a = f (fold_left f l a) x.
Proof. now rewrite fold_left_app. Qed.

(** *** The stand-alone editor *)

(** A response that decodes publishes its blob, whatever was shown. *)
Lemma pdf_settle_success outcome blob (w : PdfEditor.World) :
  PdfEditor.decode_response js outcome = Ok blob ->
  PdfEditor.shown_pdf (PdfEditor.compileLatex_settle js outcome w) = Some blob.
Proof.
  intros H. unfold PdfEditor.compileLatex_settle, PdfEditor.shown_pdf.
  rewrite H. simpl. apply lookup_insert_eq.
Qed.

(** A failed request sets the error, clears [pdfUrl] and [pdfUrlRef],
    and revokes nothing. *)
Lemma pdf_settle_failure outcome message (w : PdfEditor.World) :
  PdfEditor.decode_response js outcome = Throw message ->
  let w' := PdfEditor.compileLatex_settle js outcome w in
  PdfEditor.error (PdfEditor.ui w') = Some message
  /\ PdfEditor.pdfUrl (PdfEditor.ui w') = ""
  /\ PdfEditor.pdfUrlRef (PdfEditor.ui w') = ""
  /\ PdfEditor.urls w' = PdfEditor.urls w.
Proof.
  intros H. unfold PdfEditor.compileLatex_settle. rewrite H. simpl. auto.
Qed.

(** *** The document editor *)

Lemma doc_settle_success outcome blob (w : DocumentEditor.World) :
  DocumentEditor.decode_response js outcome = Ok blob ->
  DocumentEditor.shown_pdf (DocumentEditor.compile_settle js outcome w)
  = Some blob.
Proof.
  intros H. unfold DocumentEditor.compile_settle, DocumentEditor.shown_pdf.
  rewrite H. simpl. apply lookup_insert_eq.
Qed.

(** A failed request sets the error and leaves the published URL, its
    ref and the object URLs as they were. *)
Lemma doc_settle_failure outcome message (w : DocumentEditor.World) :
  DocumentEditor.decode_response js outcome = Throw message ->
  let w' := DocumentEditor.compile_settle js outcome w in
  DocumentEditor.error (DocumentEditor.ui w')
  = Some "Failed to compile LaTeX. Please check your syntax."
  /\ DocumentEditor.pdfUrl (DocumentEditor.ui w')
     = DocumentEditor.pdfUrl (DocumentEditor.ui w)
  /\ DocumentEditor.pdfUrlRef (DocumentEditor.ui w')
     = DocumentEditor.pdfUrlRef (DocumentEditor.ui w)
  /\ DocumentEditor.urls w' = DocumentEditor.urls w.
Proof.
  intros H. unfold DocumentEditor.compile_settle. rewrite H. simpl. auto.
Qed.

(** C1, as the code has it.  Neither editor numbers its requests or
    compares anything when an answer arrives, and no answer is
    discarded: each answer overwrites the state it touches, in the order
    of arrival, whatever the order in which the requests were sent.

    In the stand-alone editor the answer that arrives last decides
    [pdfUrl]: a decoded answer puts the URL of its PDF there, a failed
    one clears it.  The error is set by failed answers only, and a
    decoded answer leaves it as it was: so after a decoded last answer
    the preview pane holds its PDF only if no error was left by an
    earlier answer, and that error otherwise; after a failed last answer
    it holds that answer's error (the placeholder, should the message
    be empty).

    In the document editor a decoded last answer puts its PDF into the
    preview and leaves the error banner as it was; a failed one sets the
    banner to the fixed message and keeps the PDF that was there. *)
Theorem last_answer_is_published :
  (forall events seq outcome (w : PdfEditor.World) code,
      PdfEditor.inflight (PdfEditor.run js events w) !! seq = Some code ->
      let before := PdfEditor.run js events w in
      let w' := PdfEditor.run js (events ++ [PdfEditor.Resolve seq outcome]) w in
      match PdfEditor.decode_response js outcome with
      | Ok blob =>
          PdfEditor.shown_pdf w' = Some blob
          /\ is_empty (PdfEditor.pdfUrl (PdfEditor.ui w')) = false
          /\ PdfEditor.error (PdfEditor.ui w')
             = PdfEditor.error (PdfEditor.ui before)
          /\ PdfEditor.preview (PdfEditor.ui w')
             = match truthy (PdfEditor.error (PdfEditor.ui before)) with
               | Some earlier => PdfEditor.ErrorPane earlier
               | None =>
                   PdfEditor.PdfFrame
                     (iframe_src (PdfEditor.pdfUrl (PdfEditor.ui w')))
               end
      | Throw message =>
          PdfEditor.error (PdfEditor.ui w') = Some message
          /\ PdfEditor.pdfUrl (PdfEditor.ui w') = ""
          /\ PdfEditor.preview (PdfEditor.ui w')
             = (if is_empty message then PdfEditor.Placeholder
                else PdfEditor.ErrorPane message)
      end)
  /\ (forall events seq outcome (w : DocumentEditor.World) payload,
      DocumentEditor.inflight (DocumentEditor.run js events w) !! seq
      = Some payload ->
      let before := DocumentEditor.run js events w in
      let w' := DocumentEditor.run js
                  (events ++ [DocumentEditor.Resolve seq outcome]) w in
      match DocumentEditor.decode_response js outcome with
      | Ok blob =>
          DocumentEditor.shown_pdf w' = Some blob
          /\ DocumentEditor.error (DocumentEditor.ui w')
             = DocumentEditor.error (DocumentEditor.ui before)
          /\ (is_empty (DocumentEditor.content (DocumentEditor.ui before)) = false ->
              DocumentEditor.render (DocumentEditor.ui w')
              = DocumentEditor.Shown
                  (truthy (DocumentEditor.error (DocumentEditor.ui before)))
                  (Some (iframe_src
                           (DocumentEditor.pdfUrl (DocumentEditor.ui w')))))
      | Throw _ =>
          DocumentEditor.error (DocumentEditor.ui w')
          = Some "Failed to compile LaTeX. Please check your syntax."
          /\ DocumentEditor.pdfUrl (DocumentEditor.ui w')
             = DocumentEditor.pdfUrl (DocumentEditor.ui before)
          /\ DocumentEditor.shown_pdf w' = DocumentEditor.shown_pdf before
          /\ DocumentEditor.render (DocumentEditor.ui w')
             = match DocumentEditor.render (DocumentEditor.ui before) with
               | DocumentEditor.Loading => DocumentEditor.Loading
               | DocumentEditor.Shown _ frame =>
                   DocumentEditor.Shown
                     (Some "Failed to compile LaTeX. Please check your syntax.")
                     frame
               end
      end).
Proof.
  split.
  - intros events seq outcome w code Hin before w'. subst before w'.
    unfold PdfEditor.run.
    rewrite fold_left_snoc. fold (PdfEditor.run js events w).
    unfold PdfEditor.step. rewrite Hin.
    destruct (PdfEditor.decode_response js outcome) as [blob|message] eqn:E.
    + split; [now apply pdf_settle_success|].
      unfold PdfEditor.compileLatex_settle, PdfEditor.preview. rewrite E.
      cbn [PdfEditor.ui PdfEditor.pdfUrl PdfEditor.error PdfEditor.isCompiling
           ObjectUrl.createObjectURL].
      repeat split.
    + unfold PdfEditor.compileLatex_settle, PdfEditor.preview. rewrite E.
      cbn [PdfEditor.ui PdfEditor.pdfUrl PdfEditor.error PdfEditor.isCompiling
           truthy is_empty].
      repeat split. now destruct message.
  - intros events seq outcome w payload Hin before w'. subst before w'.
    unfold DocumentEditor.run.
    rewrite fold_left_snoc. fold (DocumentEditor.run js events w).
    unfold DocumentEditor.step. rewrite Hin.
    destruct (DocumentEditor.decode_response js outcome) as [blob|message] eqn:E.
    + split; [now apply doc_settle_success|].
      unfold DocumentEditor.compile_settle, DocumentEditor.render. rewrite E.
      cbn. split; [reflexivity|]. now intros ->.
    + unfold DocumentEditor.compile_settle, DocumentEditor.shown_pdf,
        DocumentEditor.render.
      rewrite E. simpl. repeat split.
      now destruct (is_empty (DocumentEditor.content
                                (DocumentEditor.ui (DocumentEditor.run js events w)))).
Qed.

End EditorFacts.

(** C1 as stated fails.  Two requests are sent from the stand-alone
    editor, number 0 and then number 1; number 1 is answered first (its
    PDF is the text B) and number 0 after it (its PDF is the text A).
    When both are answered the preview pane holds the [iframe] on the
    URL of A, the result of the lower-numbered request, the URL made for
    B having been revoked. *)
Lemma stale_answer_overwrites :
  let answer b64 := Http.Responded true {| Http.pdf := Some b64; Http.error := None |} in
  let w := PdfEditor.run example_runtime
             [PdfEditor.Compile "first"; PdfEditor.Compile "second";
              PdfEditor.Resolve 1 (answer "Qg==");
              PdfEditor.Resolve 0 (answer "QQ==")]
             PdfEditor.initial in
  PdfEditor.inflight w = ∅
  /\ PdfEditor.shown_pdf w = Some "A"
  /\ PdfEditor.shown_pdf w <> Some "B"
  /\ PdfEditor.preview (PdfEditor.ui w) = PdfEditor.PdfFrame (iframe_src "blob:1")
  /\ map_to_list (ObjectUrl.live (PdfEditor.urls w)) = [("blob:1", "A")].
Proof. vm_compute. repeat split; discriminate. Qed.

(** The same two requests with the answers the other way round in
    kind: number 1 fails first, number 0 is answered after it with its
    PDF (the text A).  [pdfUrl] then holds the PDF of number 0, and the
    preview pane still holds the error of number 1. *)
Lemma last_answer_is_published_witness :
  let failed := Http.Responded false
                  {| Http.pdf := None; Http.error := Some "Undefined control sequence" |} in
  let answer := Http.Responded true {| Http.pdf := Some "QQ=="; Http.error := None |} in
  let w' := PdfEditor.run example_runtime
              ([PdfEditor.Compile "first"; PdfEditor.Compile "second";
                PdfEditor.Resolve 1 failed]
               ++ [PdfEditor.Resolve 0 answer])
              PdfEditor.initial in
  PdfEditor.shown_pdf w' = Some "A"
  /\ is_empty (PdfEditor.pdfUrl (PdfEditor.ui w')) = false
  /\ PdfEditor.error (PdfEditor.ui w') = Some "Undefined control sequence"
  /\ PdfEditor.preview (PdfEditor.ui w')
     = PdfEditor.ErrorPane "Undefined control sequence".
Proof.
  exact (proj1 (last_answer_is_published example_runtime)
           [PdfEditor.Compile "first"; PdfEditor.Compile "second";
            PdfEditor.Resolve 1
              (Http.Responded false
                 {| Http.pdf := None;
                    Http.error := Some "Undefined control sequence" |})]
           0 (Http.Responded true {| Http.pdf := Some "QQ=="; Http.error := None |})
           PdfEditor.initial "first" eq_refl).
Defined.

(** ** Failures in the editors *)

Section FailureFacts.
Import ObjectUrl.
Context (js : Runtime).

(** C3, as the code has it.  A compile that fails after an earlier
    success revokes nothing, and it sets the error text.  In the document
    editor the published URL and its ref stay, so the last good PDF is
    still shown next to the error, and only a later success revokes it.
    In the stand-alone editor the object URL stays allocated as well, but
    the failure clears [pdfUrl] and [pdfUrlRef]: the last good PDF is no
    longer published there. *)
Theorem failure_keeps_object_url :
  (forall outcome message (w : PdfEditor.World) blob,
      PdfEditor.decode_response js outcome = Throw message ->
      PdfEditor.shown_pdf w = Some blob ->
      let w' := PdfEditor.compileLatex_settle js outcome w in
      live (PdfEditor.urls w') !! PdfEditor.pdfUrl (PdfEditor.ui w) = Some blob
      /\ PdfEditor.error (PdfEditor.ui w') = Some message
      /\ PdfEditor.pdfUrl (PdfEditor.ui w') = ""
      /\ PdfEditor.pdfUrlRef (PdfEditor.ui w') = "")
  /\ (forall outcome message (w : DocumentEditor.World) blob,
      DocumentEditor.decode_response js outcome = Throw message ->
      DocumentEditor.shown_pdf w = Some blob ->
      let w' := DocumentEditor.compile_settle js outcome w in
      DocumentEditor.shown_pdf w' = Some blob
      /\ DocumentEditor.pdfUrlRef (DocumentEditor.ui w')
         = DocumentEditor.pdfUrlRef (DocumentEditor.ui w)
      /\ live (DocumentEditor.urls w') = live (DocumentEditor.urls w)
      /\ DocumentEditor.error (DocumentEditor.ui w')
         = Some "Failed to compile LaTeX. Please check your syntax.")
  /\ (forall outcome blob' (w : DocumentEditor.World),
      DocumentEditor.decode_response js outcome = Ok blob' ->
      let old := DocumentEditor.pdfUrlRef (DocumentEditor.ui w) in
      let w' := DocumentEditor.compile_settle js outcome w in
      is_empty old = false ->
      old <> DocumentEditor.pdfUrl (DocumentEditor.ui w') ->
      live (DocumentEditor.urls w') !! old = None
      /\ DocumentEditor.shown_pdf w' = Some blob').
Proof.
  split; [|split].
  - intros outcome message w blob Hd Hshown.
    destruct (pdf_settle_failure js _ _ w Hd) as (He & Hu & Hr & Hurls).
    cbv zeta. rewrite Hurls. auto.
  - intros outcome message w blob Hd Hshown.
    destruct (doc_settle_failure js _ _ w Hd) as (He & Hu & Hr & Hurls).
    cbv zeta. unfold DocumentEditor.shown_pdf in *.
    rewrite Hurls, Hu. auto.
  - intros outcome blob' w Hd old w' Hold Hne.
    split; [|now apply doc_settle_success].
    subst w'. unfold DocumentEditor.compile_settle in *. rewrite Hd in *.
    simpl in *. unfold revoke_if_set in *. fold old in Hne |- *.
    rewrite Hold in *. simpl in *.
    rewrite lookup_insert_ne by congruence. apply lookup_delete_eq.
Qed.

End FailureFacts.

(** C3 as stated fails in the stand-alone editor.  A first compile
    succeeds and its PDF, the text A, is shown; the next compile fails.
    At that point the error text is set, but [pdfUrl] and [pdfUrlRef]
    are empty: the last good PDF is not available to the preview any
    more, although its object URL was never revoked. *)
Lemma failure_discards_last_good_pdf :
  let good := Http.Responded true {| Http.pdf := Some "QQ=="; Http.error := None |} in
  let bad := Http.Responded false
               {| Http.pdf := None;
                  Http.error := Some "LaTeX compilation failed: ! Missing $ inserted." |} in
  let before := PdfEditor.run example_runtime
                  [PdfEditor.Compile "good"; PdfEditor.Resolve 0 good;
                   PdfEditor.Compile "bad"]
                  PdfEditor.initial in
  let after := PdfEditor.step example_runtime (PdfEditor.Resolve 1 bad) before in
  PdfEditor.shown_pdf before = Some "A"
  /\ PdfEditor.error (PdfEditor.ui after)
     = Some "LaTeX compilation failed: ! Missing $ inserted."
  /\ PdfEditor.pdfUrl (PdfEditor.ui after) = ""
  /\ PdfEditor.pdfUrlRef (PdfEditor.ui after) = ""
  /\ PdfEditor.shown_pdf after = None
  /\ map_to_list (ObjectUrl.live (PdfEditor.urls after)) = [("blob:0", "A")].
Proof. vm_compute. repeat split. Qed.

(** ** Saving before compiling *)

Section SaveFacts.
Import DocumentService.
Context (js : Runtime).

Lemma obj_get_set_eq k v fields : obj_get k (obj_set k v fields) = Some v.
Proof.
  induction fields as [|[k' v'] fields IH]; simpl.
  - now rewrite String.eqb_refl.
  - destruct (String.eqb k' k) eqn:E; simpl.
    + now rewrite String.eqb_refl.
    + now rewrite E.
Qed.

Lemma obj_get_set_ne k k' v fields :
  String.eqb k' k = false -> obj_get k (obj_set k' v fields) = obj_get k fields.
Proof.
  intros Hne. induction fields as [|[k0 v0] fields IH]; simpl.
  - now rewrite Hne.
  - destruct (String.eqb k0 k') eqn:E; simpl.
    + apply String.eqb_eq in E; subst. now rewrite Hne.
    + now rewrite IH.
Qed.

(** The object that [saveDocument] builds carries the content it was
    given. *)
Lemma input_fields_content doc old :
  obj_get "content" (obj_spread old (input_fields doc))
  = Some (JString (in_content doc)).
Proof.
  unfold obj_spread, input_fields.
  rewrite fold_left_app. simpl. apply obj_get_set_eq.
Qed.

Lemma saveDocument_content clock doc w savedDoc :
  fst (saveDocument js clock doc w) = Ok savedDoc ->
  string_field "content" savedDoc = Some (in_content doc).
Proof.
  unfold saveDocument.
  destruct (truthy (in_id doc)) as [id|].
  - destruct (findIndex id (docs_of js w)) as [[index|]|]; [|discriminate..].
    simpl. intros H; inversion H; subst. unfold string_field. simpl.
    rewrite obj_get_set_ne by reflexivity.
    now rewrite input_fields_content.
  - simpl. intros H; inversion H; subst. unfold string_field. simpl.
    rewrite !obj_get_set_ne by reflexivity.
    change (input_fields doc) with (obj_spread (input_fields doc) []) at 1.
    replace (obj_get "content" (obj_spread (input_fields doc) []))
      with (Some (JString (in_content doc))); [reflexivity|].
    unfold obj_spread, input_fields. simpl.
    destruct (in_id doc); reflexivity.
Qed.

(** [saveDocument] throws exactly when it is asked to update a document
    that its search does not find: no stored entry has the id, or the
    search throws on a [null] entry first. *)
Lemma saveDocument_throws clock doc w :
  (exists message, fst (saveDocument js clock doc w) = Throw message)
  <-> exists id, truthy (in_id doc) = Some id
                 /\ forall index, findIndex id (docs_of js w) <> Ok (Some index).
Proof.
  unfold saveDocument. split.
  - intros [message H]. destruct (truthy (in_id doc)) as [id|]; [|discriminate].
    exists id. split; [reflexivity|].
    destruct (findIndex id (docs_of js w)) as [[index|]|]; [discriminate|..];
      intros index' E; discriminate E.
  - intros [id [-> Hidx]].
    destruct (findIndex id (docs_of js w)) as [[index|]|]; eauto.
    now elim (Hidx index).
Qed.

(** C6, as the code has it.  With a non-empty content, [compileLatex]
    first saves the document, and it goes on only if the save returned a
    document: then a timer is set whose callback sends the saved content
    to the compile endpoint.  If the save throws (the document has an id
    that the search of the store does not find: no entry has it, or a
    [null] entry comes first and the search throws on it), the error is
    set to the save failure, [isCompiling] goes back to false, no timer
    is set and no request is ever sent for this attempt. *)
Theorem compile_waits_for_save (clock : Clock) (w : DocumentEditor.World) :
  is_empty (DocumentEditor.content (DocumentEditor.ui w)) = false ->
  let saved := saveDocument js clock (DocumentEditor.docToSave (DocumentEditor.ui w))
                 (DocumentEditor.window w) in
  let w' := DocumentEditor.compileLatex js clock w in
  DocumentEditor.window w' = snd saved
  /\ match fst saved with
     | Ok _ =>
         DocumentEditor.compileTimeout (DocumentEditor.ui w')
         = Some (DocumentEditor.nextTimer w)
         /\ DocumentEditor.timers w' !! DocumentEditor.nextTimer w
            = Some (DocumentEditor.content (DocumentEditor.ui w))
         /\ DocumentEditor.isCompiling (DocumentEditor.ui w') = true
         /\ DocumentEditor.inflight
              (DocumentEditor.timer_fire (DocumentEditor.nextTimer w) w')
            !! DocumentEditor.issued w
            = Some (DocumentEditor.content (DocumentEditor.ui w))
     | Throw _ =>
         (exists id,
             truthy (DocumentEditor.document_id (DocumentEditor.ui w)) = Some id
             /\ DocumentEditor.stored js id w = false)
         /\ DocumentEditor.timers w' = DocumentEditor.timers_cleared w
         /\ DocumentEditor.inflight w' = DocumentEditor.inflight w
         /\ DocumentEditor.error (DocumentEditor.ui w')
            = Some "Failed to save document"
         /\ DocumentEditor.isCompiling (DocumentEditor.ui w') = false
     end.
Proof.
  intros Hc saved w'. subst w'. unfold DocumentEditor.compileLatex.
  rewrite Hc. unfold DocumentEditor.saveCurrentDocument.
  assert (Hc2 : forall w0 : DocumentEditor.World,
            DocumentEditor.content (DocumentEditor.ui w0)
            = DocumentEditor.content (DocumentEditor.ui w) ->
            is_empty (DocumentEditor.content (DocumentEditor.ui w0)) = false)
    by (intros w0 ->; exact Hc).
  destruct (DocumentEditor.compileTimeout (DocumentEditor.ui w)) as [t|] eqn:Et.
  all: simpl; rewrite Et; simpl; rewrite Hc.
  all: change (DocumentEditor.docToSave _)
         with (DocumentEditor.docToSave (DocumentEditor.ui w)).
  all: fold saved.
  all: pose proof (saveDocument_content clock
                     (DocumentEditor.docToSave (DocumentEditor.ui w))
                     (DocumentEditor.window w)) as Hcontent.
  all: pose proof (proj1 (saveDocument_throws clock
                     (DocumentEditor.docToSave (DocumentEditor.ui w))
                     (DocumentEditor.window w))) as Hthrows.
  all: fold saved in Hcontent, Hthrows.
  all: destruct saved as [[savedDoc|message] win]; simpl in *.
  all: split; [reflexivity|].
  1,3: rewrite (Hcontent savedDoc eq_refl); simpl;
       unfold DocumentEditor.timer_fire; simpl;
       rewrite !lookup_insert_eq; simpl; rewrite !lookup_insert_eq; auto.
  all: split; [|unfold DocumentEditor.timers_cleared; rewrite Et; auto].
  all: destruct Hthrows as [id [Hid Hidx]]; [eauto|].
  all: exists id; split; [exact Hid|].
  all: unfold DocumentEditor.stored.
  all: destruct (findIndex id (docs_of js (DocumentEditor.window w)))
         as [[index|]|]; [now elim (Hidx index)|reflexivity..].
Qed.

End SaveFacts.

(** C6 as stated fails.  The editor holds a document that is no longer
    in the store; the save throws, and [compileLatex] stops there: the
    error is the save failure, no timer is pending, and no request is
    sent, also when timers are let to fire afterwards. *)
Lemma save_failure_blocks_compile :
  let w := DocumentEditor.compileLatex example_runtime example_clock
             (example_editor (Some lost_document)) in
  fst (DocumentService.saveDocument example_runtime example_clock
         (DocumentEditor.docToSave
            (DocumentEditor.ui (example_editor (Some lost_document))))
         (DocumentService.Storage ∅))
  = Throw "Document not found"
  /\ DocumentEditor.error (DocumentEditor.ui w) = Some "Failed to save document"
  /\ DocumentEditor.isCompiling (DocumentEditor.ui w) = false
  /\ DocumentEditor.timers w = ∅
  /\ DocumentEditor.inflight
       (DocumentEditor.run example_runtime
          [DocumentEditor.TimerFires 0; DocumentEditor.TimerFires 1;
           DocumentEditor.TimerFires 2] w) = ∅.
Proof. vm_compute. repeat split. Qed.

(** A store whose first entry is [null]: the search throws on it before
    it reaches the document that the editor holds; the save fails with
    that [TypeError] and the compile stops in the same way. *)
Example null_entry_blocks_compile :
  let js := replay_runtime (JArray [JNull; stored_a]) (JArray []) in
  let start :=
    {| DocumentEditor.ui := DocumentEditor.ui (example_editor (Some stored_a));
       DocumentEditor.window :=
         DocumentService.Storage {[ DocumentService.DOCUMENTS_KEY := "before" ]};
       DocumentEditor.urls := {| ObjectUrl.live := ∅; ObjectUrl.minted := 0 |};
       DocumentEditor.timers := ∅;
       DocumentEditor.nextTimer := 1;
       DocumentEditor.inflight := ∅;
       DocumentEditor.issued := 0 |} in
  let w := DocumentEditor.compileLatex js example_clock start in
  fst (DocumentService.saveDocument js example_clock
         (DocumentEditor.docToSave (DocumentEditor.ui start))
         (DocumentEditor.window start))
  = Throw "Cannot read properties of null (reading 'id')"
  /\ DocumentEditor.stored js "doc_1" start = false
  /\ DocumentEditor.error (DocumentEditor.ui w) = Some "Failed to save document"
  /\ DocumentEditor.isCompiling (DocumentEditor.ui w) = false
  /\ DocumentEditor.timers w = ∅
  /\ DocumentEditor.window w = DocumentEditor.window start.
Proof. vm_compute. repeat split. Qed.

Lemma compile_waits_for_save_witness :
  let w := example_editor None in
  let w' := DocumentEditor.compileLatex example_runtime example_clock w in
  DocumentEditor.compileTimeout (DocumentEditor.ui w') = Some 1
  /\ DocumentEditor.timers w' !! 1 = Some "\documentclass{article}"
  /\ DocumentEditor.isCompiling (DocumentEditor.ui w') = true
  /\ DocumentEditor.inflight (DocumentEditor.timer_fire 1 w') !! 0
     = Some "\documentclass{article}".
Proof.
  exact (proj2 (compile_waits_for_save example_runtime example_clock
                  (example_editor None) eq_refl)).
Defined.

(** * Further properties of the code *)

(** ** The segmenter: shapes of the parts *)

Section SegmenterShapes.
Import Segmenter.

#[local] Arguments Ascii.eqb : simpl never.

Lemma strip_prefix_app_l lit a b x :
  strip_prefix lit a = Some x -> strip_prefix lit (a ++ b) = Some (x ++ b).
Proof.
  revert a; induction lit as [|c lit IH]; intros a H; simpl in *.
  - now inversion H.
  - destruct a as [|d a]; [discriminate|]. simpl.
    destruct (Ascii.eqb c d); [now apply IH | discriminate].
Qed.

(** The lazy body stops before the first closing delimiter: it holds
    none. *)
Lemma until_lit_minimal close s body r :
  is_empty close = false ->
  until_lit close s = Some (body, r) -> contains close body = false.
Proof.
  intros Hc. revert body r; induction s as [|c s IH]; intros body r H.
  - simpl in H. destruct (strip_prefix close "") eqn:E; [|discriminate].
    inversion H; subst. destruct close; [discriminate | reflexivity].
  - simpl in H. destruct (strip_prefix close (String c s)) eqn:E.
    + inversion H; subst. destruct close; [discriminate | reflexivity].
    + destruct (until_lit close s) as [[b' r']|] eqn:E'; [|discriminate].
      inversion H; subst. simpl.
      destruct (strip_prefix close (String c b')) eqn:E2.
      * apply until_lit_app in E'. subst s.
        apply (strip_prefix_app_l _ _ (close ++ r)) in E2.
        simpl in E2. rewrite E in E2. discriminate.
      * now apply (IH b' r).
Qed.

Lemma all_not_dollar_occurs body :
  all_chars not_dollar body = true -> occurs dollar body = false.
Proof.
  induction body as [|c body IH]; simpl; [reflexivity|].
  unfold not_dollar at 1. intros H. apply andb_true_iff in H as [H1 H2].
  apply negb_true_iff in H1. rewrite H1. simpl. now apply IH.
Qed.

Lemma match_at_delimited s m r : match_at s = Some (m, r) -> delimited m.
Proof.
  unfold match_at, or_else. intros H.
  destruct (alt_display_dollar s) as [[m1 r1]|] eqn:E1.
  { inversion H; subst. left. unfold alt_display_dollar in E1.
    destruct (strip_prefix "$$" s) as [s1|]; [|discriminate].
    destruct (span not_dollar s1) as [body s2] eqn:Es.
    destruct (strip_prefix "$$" s2); [|discriminate].
    inversion E1; subst. exists body. split; [reflexivity|].
    apply all_not_dollar_occurs. exact (span_all _ _ _ _ Es). }
  destruct (alt_bracketed "\[" "\]" s) as [[m2 r2]|] eqn:E2.
  { inversion H; subst. right; left. unfold alt_bracketed in E2.
    destruct (strip_prefix "\[" s) as [s1|]; [|discriminate].
    destruct (until_lit "\]" s1) as [[body rest]|] eqn:Eu; [|discriminate].
    inversion E2; subst. exists body. split; [reflexivity|].
    now apply (until_lit_minimal "\]" s1 body r). }
  destruct (alt_bracketed "\(" "\)" s) as [[m3 r3]|] eqn:E3.
  { inversion H; subst. right; right; left. unfold alt_bracketed in E3.
    destruct (strip_prefix "\(" s) as [s1|]; [|discriminate].
    destruct (until_lit "\)" s1) as [[body rest]|] eqn:Eu; [|discriminate].
    inversion E3; subst. exists body. split; [reflexivity|].
    now apply (until_lit_minimal "\)" s1 body r). }
  right; right; right.
  apply alt_inline_dollar_app in H as [_ [body [Hm [Hne Hall]]]]. eauto.
Qed.

(** X1. Every math part is a complete delimited formula: [$$..$$] with
    no dollar inside, [\[..\]] or [\(..\)] up to the first closing
    delimiter, or [$..$] with a non-empty body free of dollars and line
    breaks. *)
Theorem math_parts_are_delimited (code : string) (p : MathPart) :
  In p (parts code) -> type p = math -> delimited (content p).
Proof.
  intros Hin Hty. destruct (split_loop_math _ _ _ Hin Hty) as [s [r Hm]].
  exact (match_at_delimited _ _ _ Hm).
Qed.

Lemma math_parts_are_delimited_witness :
  delimited (content {| type := math; content := "$x^2$" |}).
Proof.
  apply (math_parts_are_delimited "a $x^2$ b" {| type := math; content := "$x^2$" |}).
  - vm_compute. right; left. reflexivity.
  - reflexivity.
Defined.

Lemma split_loop_nonempty fuel s p :
  In p (split_loop fuel s) -> is_empty (content p) = false.
Proof.
  revert s; induction fuel as [|fuel IH]; intros s Hin; [contradiction|].
  simpl in Hin. destruct (exec s) as [[[skipped m] r]|] eqn:E.
  - apply in_app_or in Hin as [Hin|[<-|Hin]].
    + destruct (is_empty skipped) eqn:Es; [contradiction|].
      destruct Hin as [<-|[]]. exact Es.
    + simpl. destruct (exec_match _ _ _ _ E) as [s' Hs'].
      now apply match_at_app in Hs' as [_ Hne].
    + eauto.
  - destruct (is_empty s) eqn:Es; [contradiction|].
    destruct Hin as [<-|[]]. exact Es.
Qed.

Lemma split_loop_alternates fuel s : no_adjacent_text (split_loop fuel s) = true.
Proof.
  revert s; induction fuel as [|fuel IH]; intros s; [reflexivity|].
  simpl. destruct (exec s) as [[[skipped m] r]|].
  - specialize (IH r).
    destruct (is_empty skipped); simpl;
      destruct (split_loop fuel r) as [|q l]; simpl in *; auto.
  - now destruct (is_empty s).
Qed.

(** X2. No part is empty, and no two neighbouring parts are both text:
    a text part always runs up to the next formula or to the end of the
    input. *)
Theorem parts_nonempty_and_maximal (code : string) :
  (forall p, In p (parts code) -> is_empty (content p) = false)
  /\ no_adjacent_text (parts code) = true.
Proof.
  split.
  - intros p. apply split_loop_nonempty.
  - apply split_loop_alternates.
Qed.

Lemma match_at_plain c s :
  not_delimiter c = true -> match_at (String c s) = None.
Proof.
  unfold not_delimiter. intros H. apply andb_true_iff in H as [H1 H2].
  apply negb_true_iff in H1, H2. unfold dollar in H1.
  assert (Hd : Ascii.eqb "$" c = false) by (now rewrite Ascii.eqb_sym).
  assert (Hb : Ascii.eqb "\" c = false) by (now rewrite Ascii.eqb_sym).
  unfold match_at, or_else, alt_display_dollar, alt_bracketed, alt_inline_dollar.
  simpl. now rewrite Hd, Hb.
Qed.

Lemma exec_plain s : all_chars not_delimiter s = true -> exec s = None.
Proof.
  induction s as [|c s IH]; intros H; [reflexivity|].
  simpl in H. apply andb_true_iff in H as [Hc Hs].
  rewrite (exec_skip _ _ (match_at_plain _ _ Hc)). now rewrite (IH Hs).
Qed.

Lemma escape_text_plain s :
  all_chars not_html_special s = true -> escape_text s = s.
Proof.
  induction s as [|c s IH]; intros H; [reflexivity|].
  simpl in H. apply andb_true_iff in H as [Hc Hs].
  rewrite escape_text_cons, (IH Hs). unfold escape_char.
  unfold not_html_special in Hc.
  repeat (apply andb_true_iff in Hc as [Hc ?]).
  repeat match goal with
         | H : negb _ = true |- _ => apply negb_true_iff in H; rewrite H
         end.
  reflexivity.
Qed.

(** X3. A source with no dollar and no backslash is one text part, and
    the preview of it is its escaped text; if it also has none of [&],
    [<], [>] and no line break, the preview is the source itself. *)
Theorem plain_source_passes_through (katex : Katex) (code : string) :
  is_empty code = false ->
  all_chars not_delimiter code = true ->
  parts code = [{| type := text; content := code |}]
  /\ processLatex (Some katex) code = escape_text code
  /\ (all_chars not_html_special code = true ->
      processLatex (Some katex) code = code).
Proof.
  intros Hne Hplain.
  assert (Hparts : parts code = [{| type := text; content := code |}]).
  { rewrite parts_unfold, (exec_plain _ Hplain), Hne. reflexivity. }
  assert (Hhtml : processLatex (Some katex) code = escape_text code).
  { unfold processLatex. now rewrite Hparts. }
  split; [exact Hparts|]. split; [exact Hhtml|].
  intros Hs. now rewrite Hhtml, escape_text_plain.
Qed.

Lemma plain_source_passes_through_witness :
  parts "Hello, world" = [{| type := text; content := "Hello, world" |}]
  /\ processLatex (Some {| renderToString := None |}) "Hello, world"
     = escape_text "Hello, world"
  /\ (all_chars not_html_special "Hello, world" = true ->
      processLatex (Some {| renderToString := None |}) "Hello, world"
      = "Hello, world").
Proof.
  apply (plain_source_passes_through {| renderToString := None |} "Hello, world");
    reflexivity.
Defined.

End SegmenterShapes.

(** ** The segmenter: what the renderer is given *)

Section MathContentFacts.
Import Segmenter.

#[local] Arguments Ascii.eqb : simpl never.

Lemma strip_suffix_sound lit s r : strip_suffix lit s = Some r -> s = r ++ lit.
Proof.
  revert r; induction s as [|c s IH]; intros r H; cbn [strip_suffix] in H.
  - destruct (String.eqb_spec "" lit) as [<-|]; [|discriminate].
    now inversion H.
  - destruct (String.eqb_spec (String c s) lit) as [<-|].
    + now inversion H.
    + destruct (strip_suffix lit s) as [r'|]; [|discriminate].
      inversion H; subst. simpl. now rewrite (IH r' eq_refl).
Qed.

Lemma strip_suffix_app lit r : strip_suffix lit (r ++ lit) = Some r.
Proof.
  induction r as [|c r IH].
  - change ("" ++ lit) with lit.
    destruct lit; cbn [strip_suffix]; now rewrite String.eqb_refl.
  - change (String c r ++ lit) with (String c (r ++ lit)). cbn [strip_suffix].
    destruct (String.eqb_spec (String c (r ++ lit)) lit) as [E|_].
    + apply (f_equal String.length) in E. simpl in E.
      rewrite length_append in E. lia.
    + now rewrite IH.
Qed.

Lemma last_char_app a b : is_empty b = false -> last_char (a ++ b) = last_char b.
Proof.
  intros Hb. induction a as [|c a IH]; [reflexivity|].
  simpl. rewrite IH. destruct (a ++ b) eqn:E; [|reflexivity].
  destruct a; simpl in E; [subst; discriminate | discriminate].
Qed.

(** A literal that ends in another character than the string is not
    its suffix. *)
Lemma strip_suffix_last lit s :
  is_empty lit = false -> last_char s <> last_char lit ->
  strip_suffix lit s = None.
Proof.
  intros Hl Hne. destruct (strip_suffix lit s) as [r|] eqn:E; [|reflexivity].
  apply strip_suffix_sound in E. subst. now rewrite last_char_app in Hne.
Qed.

Lemma strip_suffix_dollars body :
  all_chars not_dollar_nl body = true -> strip_suffix "$$" (body ++ "$") = None.
Proof.
  induction body as [|c body IH]; intros H; [reflexivity|].
  simpl in H. apply andb_true_iff in H as [Hc Hb].
  change (String c body ++ "$") with (String c (body ++ "$")).
  cbn [strip_suffix].
  destruct (String.eqb_spec (String c (body ++ "$")) "$$") as [E|_].
  - inversion E; subst. vm_compute in Hc. discriminate.
  - now rewrite (IH Hb).
Qed.

Lemma mathContent_single_dollar body :
  is_empty body = false -> all_chars not_dollar_nl body = true ->
  mathContent ("$" ++ body ++ "$") = "$" ++ body ++ "$".
Proof.
  intros Hne Hall.
  assert (Hlast : last_char ("$" ++ body ++ "$") = Some "$"%char).
  { change ("$" ++ body ++ "$") with (("$" ++ body) ++ "$").
    now rewrite last_char_app. }
  assert (H1 : strip_ends "$$" "$$" ("$" ++ body ++ "$") = "$" ++ body ++ "$").
  { unfold strip_ends.
    assert (Hp : strip_prefix "$$" ("$" ++ body ++ "$") = None).
    { destruct body as [|c body]; [discriminate|].
      simpl in Hall. apply andb_true_iff in Hall as [Hc _].
      unfold not_dollar_nl in Hc. apply andb_true_iff in Hc as [Hc _].
      apply negb_true_iff in Hc. unfold dollar in Hc.
      simpl. rewrite Ascii.eqb_sym. now rewrite Hc. }
    rewrite Hp.
    change ("$" ++ body ++ "$") with (String "$" (body ++ "$")).
    cbn [strip_suffix].
    destruct (String.eqb_spec (String "$" (body ++ "$")) "$$") as [E|_].
    - inversion E as [E']. destruct body; [discriminate|].
      simpl in E'. inversion E' as [[Ec Eb]]. destruct body; discriminate.
    - now rewrite (strip_suffix_dollars _ Hall). }
  unfold mathContent. rewrite H1.
  assert (H2 : forall open close : string,
             strip_prefix open ("$" ++ body ++ "$") = None ->
             is_empty close = false -> last_char close <> Some "$"%char ->
             strip_ends open close ("$" ++ body ++ "$") = "$" ++ body ++ "$").
  { intros open close Hp Hc Hl. unfold strip_ends. rewrite Hp.
    rewrite strip_suffix_last; [reflexivity | exact Hc |].
    rewrite Hlast. congruence. }
  rewrite (H2 "\[" "\]"); [|reflexivity|reflexivity|discriminate].
  rewrite (H2 "\(" "\)"); [|reflexivity|reflexivity|discriminate].
  reflexivity.
Qed.

Lemma mathContent_paren body :
  mathContent ("\(" ++ body ++ "\)") = body.
Proof.
  assert (Hlast : last_char ("\(" ++ body ++ "\)") = Some ")"%char).
  { change ("\(" ++ body ++ "\)") with (("\(" ++ body) ++ "\)").
    now rewrite last_char_app. }
  assert (H : forall open close : string,
             strip_prefix open ("\(" ++ body ++ "\)") = None ->
             is_empty close = false -> last_char close <> Some ")"%char ->
             strip_ends open close ("\(" ++ body ++ "\)") = "\(" ++ body ++ "\)").
  { intros open close Hp Hc Hl. unfold strip_ends. rewrite Hp.
    rewrite strip_suffix_last; [reflexivity | exact Hc |].
    rewrite Hlast. congruence. }
  unfold mathContent.
  rewrite (H "$$" "$$"); [|reflexivity|reflexivity|discriminate].
  rewrite (H "\[" "\]"); [|reflexivity|reflexivity|discriminate].
  unfold strip_ends.
  change (strip_prefix "\(" ("\(" ++ body ++ "\)")) with (Some (body ++ "\)")).
  cbv beta iota zeta. now rewrite strip_suffix_app.
Qed.

(** X4. What is handed to [renderToString] in inline mode.  For a
    [\(..\)] part it is the body, without the delimiters; for a [$..$]
    part it is the whole part, the two dollars included: none of the
    three [replace] calls removes a single dollar. *)
Theorem inline_math_content (code : string) (p : MathPart) :
  In p (parts code) -> type p = math ->
  (starts_with "\(" (content p) = true ->
   exists body, content p = "\(" ++ body ++ "\)"
                /\ mathContent (content p) = body
                /\ displayMode (content p) = false)
  /\ (single_dollar_math p = true ->
      mathContent (content p) = content p
      /\ displayMode (content p) = false).
Proof.
  intros Hin Hty. destruct (split_loop_math _ _ _ Hin Hty) as [s [r Hm]].
  destruct (match_at_delimited _ _ _ Hm)
    as [[b [Hb _]]|[[b [Hb _]]|[[b [Hb _]]|[b [Hb [Hne Hall]]]]]].
  - split.
    + rewrite Hb. discriminate.
    + unfold single_dollar_math. rewrite Hty, Hb. discriminate.
  - split.
    + rewrite Hb. discriminate.
    + unfold single_dollar_math. rewrite Hty, Hb. discriminate.
  - split.
    + intros _. exists b. rewrite Hb. split; [reflexivity|].
      split; [apply mathContent_paren | reflexivity].
    + unfold single_dollar_math. rewrite Hty, Hb. discriminate.
  - split.
    + rewrite Hb. discriminate.
    + intros _. rewrite Hb. split; [now apply mathContent_single_dollar|].
      destruct b as [|c b]; [discriminate|].
      simpl in Hall. apply andb_true_iff in Hall as [Hc _].
      unfold not_dollar_nl in Hc. apply andb_true_iff in Hc as [Hc _].
      apply negb_true_iff in Hc. unfold dollar in Hc.
      unfold displayMode, starts_with. simpl.
      rewrite Ascii.eqb_sym. now rewrite Hc.
Qed.

Lemma inline_math_content_witness :
  (starts_with "\(" "$x^2$" = true ->
   exists body, "$x^2$" = "\(" ++ body ++ "\)"
                /\ mathContent "$x^2$" = body
                /\ displayMode "$x^2$" = false)
  /\ (single_dollar_math {| type := math; content := "$x^2$" |} = true ->
      mathContent "$x^2$" = "$x^2$" /\ displayMode "$x^2$" = false).
Proof.
  apply (inline_math_content "a $x^2$ b" {| type := math; content := "$x^2$" |}).
  - vm_compute. right; left. reflexivity.
  - reflexivity.
Defined.

End MathContentFacts.

(** ** The document store: writes and what is read back *)

Section StoreFacts.
Import DocumentService.
Context (js : Runtime).

(** What was stored through a runtime that round-trips it is what
    [getDocuments] returns. *)
Lemma docs_of_stored items docs :
  round_trips js (JArray docs) ->
  docs_of js (safe_setItem (Storage items) DOCUMENTS_KEY
                (JSON_stringify js (JArray docs))) = docs.
Proof.
  intros [Hne Hrt]. unfold docs_of. rewrite getDocuments_cases.
  unfold safe_setItem, safe_getItem. simpl.
  rewrite lookup_insert_eq, Hne, Hrt. reflexivity.
Qed.

(** Where no entry is [null], the callbacks never throw. *)
Lemma id_is_has_id id d :
  d <> JNull -> id_is id d = Ok (has_id id d).
Proof.
  intros Hd. unfold id_is, has_id, string_field, read_id.
  destruct d; try contradiction; simpl;
    try reflexivity.
  destruct (obj_get "id" fields) as [[]|]; reflexivity.
Qed.

Lemma no_null_cons d docs :
  no_null (d :: docs) = true -> d <> JNull /\ no_null docs = true.
Proof.
  unfold no_null. simpl. intros H. apply andb_true_iff in H as [Hd Hr].
  split; [|exact Hr]. now destruct d.
Qed.

Lemma find_by_id_find id docs :
  no_null docs = true -> find_by_id id docs = Ok (find (has_id id) docs).
Proof.
  induction docs as [|d docs IH]; intros Hn; [reflexivity|].
  apply no_null_cons in Hn as [Hd Hn]. simpl.
  rewrite (id_is_has_id _ _ Hd). destruct (has_id id d); [reflexivity|].
  now apply IH.
Qed.

Lemma filter_out_filter id docs :
  no_null docs = true ->
  filter_out id docs = Ok (List.filter (fun d => negb (has_id id d)) docs).
Proof.
  induction docs as [|d docs IH]; intros Hn; [reflexivity|].
  apply no_null_cons in Hn as [Hd Hn]. simpl.
  rewrite (id_is_has_id _ _ Hd), (IH Hn). now destruct (has_id id d).
Qed.

Lemma no_null_filter f docs :
  no_null docs = true -> no_null (List.filter f docs) = true.
Proof.
  induction docs as [|d docs IH]; intros Hn; [reflexivity|].
  apply no_null_cons in Hn as [Hd Hn]. simpl.
  destruct (f d); [|now apply IH].
  unfold no_null in *. simpl. rewrite (IH Hn). now destruct d.
Qed.

Lemma has_id_unique id id' d :
  has_id id d = true -> has_id id' d = true -> id = id'.
Proof.
  unfold has_id. destruct (string_field "id" d) as [s|]; [|discriminate].
  intros H1 H2. apply String.eqb_eq in H1, H2. congruence.
Qed.

Lemma find_filter_same id docs :
  find (has_id id) (List.filter (fun d => negb (has_id id d)) docs) = None.
Proof.
  induction docs as [|d docs IH]; [reflexivity|]. simpl.
  destruct (has_id id d) eqn:E; simpl; [exact IH|]. now rewrite E.
Qed.

Lemma find_filter_other id id' docs :
  id <> id' ->
  find (has_id id') (List.filter (fun d => negb (has_id id d)) docs)
  = find (has_id id') docs.
Proof.
  intros Hne. induction docs as [|d docs IH]; [reflexivity|]. simpl.
  destruct (has_id id d) eqn:E; simpl.
  - destruct (has_id id' d) eqn:E'; [|exact IH].
    destruct (Hne (has_id_unique _ _ _ E E')).
  - now rewrite IH.
Qed.

(** X5. Deleting works as a user expects when the store holds an array
    without [null] entries and the runtime round-trips what is written:
    the call does not throw, the documents with the given id are gone,
    the others are kept in their order, and every other id still finds
    the document it found before. *)
Theorem deleteDocument_removes (id : string) (items : gmap string string) :
  let w := Storage items in
  let kept := List.filter (fun d => negb (has_id id d)) (docs_of js w) in
  no_null (docs_of js w) = true ->
  round_trips js (JArray kept) ->
  fst (deleteDocument js id w) = Ok tt
  /\ getDocuments js (snd (deleteDocument js id w)) = Ok kept
  /\ getDocument js id (snd (deleteDocument js id w)) = None
  /\ (forall id', id <> id' ->
        getDocument js id' (snd (deleteDocument js id w)) = getDocument js id' w).
Proof.
  intros w kept Hn Hrt. unfold deleteDocument.
  rewrite (filter_out_filter _ _ Hn). fold kept. simpl.
  pose proof (docs_of_stored items kept Hrt) as Hdocs.
  assert (Hget : getDocuments js
                   (safe_setItem w DOCUMENTS_KEY (JSON_stringify js (JArray kept)))
                 = Ok kept).
  { destruct Hrt as [Hne Hp]. rewrite getDocuments_cases.
    unfold safe_setItem, safe_getItem. simpl.
    rewrite lookup_insert_eq, Hne, Hp. reflexivity. }
  split; [reflexivity|]. split; [exact Hget|].
  unfold getDocument. fold w in Hdocs. rewrite Hdocs. unfold kept.
  split.
  - rewrite (find_by_id_find _ _ (no_null_filter _ _ Hn)).
    apply find_filter_same.
  - intros id' Hne.
    rewrite (find_by_id_find _ _ (no_null_filter _ _ Hn)).
    rewrite (find_by_id_find _ _ Hn). now apply find_filter_other.
Qed.

(** A callback that answers says what [has_id] says. *)
Lemma id_is_ok id d b : id_is id d = Ok b -> has_id id d = b.
Proof.
  intros H.
  assert (Hd : d <> JNull) by (intros ->; discriminate H).
  rewrite (id_is_has_id _ _ Hd) in H. now inversion H.
Qed.

Lemma findIndex_first id docs index :
  findIndex id docs = Ok (Some index) ->
  exists old, docs !! index = Some old /\ has_id id old = true
              /\ (forall j d, j < index -> docs !! j = Some d -> has_id id d = false).
Proof.
  revert index; induction docs as [|d docs IH]; intros index H; [discriminate|].
  simpl in H. destruct (id_is id d) as [[|]|] eqn:E0; [| |discriminate];
    apply id_is_ok in E0 as E.
  - inversion H; subst. exists d. repeat split; [exact E|]. intros j d' Hj. lia.
  - destruct (findIndex id docs) as [[i|]|]; [|discriminate..].
    inversion H; subst. destruct (IH i eq_refl) as [old [Hl [Hid Hbefore]]].
    exists old. repeat split; [exact Hl | exact Hid |].
    intros [|j] d' Hj Hd.
    + inversion Hd; subst. exact E.
    + apply (Hbefore j d'); [lia | exact Hd].
Qed.

Lemma obj_get_spread_other k a b :
  obj_get k b = None -> obj_get k (obj_spread a b) = obj_get k a.
Proof.
  unfold obj_spread. revert a; induction b as [|[k' v] b IH]; intros a H;
    [reflexivity|].
  simpl in H |- *. destruct (String.eqb k' k) eqn:E; [discriminate|].
  rewrite (IH _ H). now apply obj_get_set_ne.
Qed.

Lemma input_fields_title doc old :
  obj_get "title" (obj_spread old (input_fields doc))
  = Some (JString (in_title doc)).
Proof.
  unfold obj_spread, input_fields.
  rewrite fold_left_app. simpl.
  rewrite obj_get_set_ne by reflexivity. apply obj_get_set_eq.
Qed.

Lemma input_fields_other k doc :
  k <> "id" -> k <> "title" -> k <> "content" ->
  obj_get k (input_fields doc) = None.
Proof.
  intros H1 H2 H3. apply String.eqb_neq in H1, H2, H3.
  rewrite String.eqb_sym in H1. rewrite String.eqb_sym in H2.
  rewrite String.eqb_sym in H3.
  unfold input_fields. destruct (in_id doc); cbn [app obj_get];
    now rewrite ?H1, H2, H3.
Qed.

(** X6. Saving a new document (no id, or an empty one) into an
    available store appends it: the call returns a document whose id is
    [doc_] followed by the time in milliseconds, whose [createdAt] and
    [updatedAt] are the current time and whose title and content are the
    given ones, and [getDocuments] then returns the old list with that
    document at its end. *)
Theorem saveDocument_appends_new (clock : Clock) (doc : DocInput)
  (items : gmap string string) :
  let w := Storage items in
  let newDoc := new_document clock doc in
  truthy (in_id doc) = None ->
  round_trips js (JArray (docs_of js w ++ [newDoc])) ->
  fst (saveDocument js clock doc w) = Ok newDoc
  /\ getDocuments js (snd (saveDocument js clock doc w))
     = Ok (docs_of js w ++ [newDoc])%list
  /\ string_field "id" newDoc = Some ("doc_" ++ pretty (nowMs clock))
  /\ string_field "title" newDoc = Some (in_title doc)
  /\ string_field "content" newDoc = Some (in_content doc)
  /\ string_field "createdAt" newDoc = Some (nowIso clock)
  /\ string_field "updatedAt" newDoc = Some (nowIso clock).
Proof.
  intros w newDoc Hid Hrt. unfold saveDocument. rewrite Hid.
  fold (new_document clock doc). fold newDoc. cbn [fst snd].
  assert (Hget : getDocuments js
            (safe_setItem w DOCUMENTS_KEY
               (JSON_stringify js (JArray (docs_of js w ++ [newDoc]))))
          = Ok (docs_of js w ++ [newDoc])%list).
  { destruct Hrt as [Hne Hp]. rewrite getDocuments_cases.
    unfold safe_setItem, safe_getItem. simpl.
    rewrite lookup_insert_eq, Hne, Hp. reflexivity. }
  split; [reflexivity|]. split; [exact Hget|].
  unfold newDoc, new_document, string_field. cbn [own_fields].
  repeat split.
  - rewrite !obj_get_set_ne by reflexivity. now rewrite obj_get_set_eq.
  - rewrite !obj_get_set_ne by reflexivity.
    unfold input_fields. now destruct (in_id doc).
  - rewrite !obj_get_set_ne by reflexivity.
    unfold input_fields. now destruct (in_id doc).
  - rewrite obj_get_set_ne by reflexivity. now rewrite obj_get_set_eq.
  - now rewrite obj_get_set_eq.
Qed.

(** X7. Saving under an id that the store holds (an array without
    [null] entries) replaces the first document with that id, in place:
    the list keeps its length and its other entries; the new entry has
    the given title and content and the current time as [updatedAt], and
    it keeps every other field of the old entry, its [createdAt]
    included. *)
Theorem saveDocument_updates_in_place (clock : Clock) (doc : DocInput)
  (items : gmap string string) (id : string) (index : nat) (old : Json) :
  let w := Storage items in
  let updated := updated_document clock old doc in
  truthy (in_id doc) = Some id ->
  no_null (docs_of js w) = true ->
  findIndex id (docs_of js w) = Ok (Some index) ->
  docs_of js w !! index = Some old ->
  round_trips js (JArray (<[index := updated]> (docs_of js w))) ->
  has_id id old = true
  /\ (forall j d, j < index -> docs_of js w !! j = Some d -> has_id id d = false)
  /\ fst (saveDocument js clock doc w) = Ok updated
  /\ getDocuments js (snd (saveDocument js clock doc w))
     = Ok (<[index := updated]> (docs_of js w))
  /\ string_field "title" updated = Some (in_title doc)
  /\ string_field "content" updated = Some (in_content doc)
  /\ string_field "updatedAt" updated = Some (nowIso clock)
  /\ (forall k, k <> "id" -> k <> "title" -> k <> "content" ->
                k <> "updatedAt" ->
                obj_get k (own_fields updated) = obj_get k (own_fields old)).
Proof.
  intros w updated Hid Hn Hidx Hold Hrt.
  destruct (findIndex_first _ _ _ Hidx) as [old' [Hl [Hhas Hbefore]]].
  rewrite Hold in Hl. inversion Hl; subst old'.
  split; [exact Hhas|]. split; [exact Hbefore|].
  unfold saveDocument. rewrite Hid, Hidx, Hold.
  fold (updated_document clock old doc). fold updated. cbn [fst snd].
  split; [reflexivity|]. split.
  { destruct Hrt as [Hne Hp]. rewrite getDocuments_cases.
    unfold safe_setItem, safe_getItem. simpl.
    rewrite lookup_insert_eq, Hne, Hp. reflexivity. }
  unfold updated, updated_document, string_field. cbn [own_fields].
  repeat split.
  - rewrite obj_get_set_ne by reflexivity. now rewrite input_fields_title.
  - rewrite obj_get_set_ne by reflexivity. now rewrite input_fields_content.
  - now rewrite obj_get_set_eq.
  - intros k H1 H2 H3 H4.
    rewrite obj_get_set_ne by (apply String.eqb_neq; congruence).
    apply obj_get_spread_other. now apply input_fields_other.
Qed.

(** X8. Without a usable [localStorage] (no [window], or a storage whose
    every access throws) a first save still reports success and returns
    the new document, but nothing is stored: the document list is empty
    afterwards and the id just handed out finds nothing. *)
Theorem saveDocument_without_storage (clock : Clock) (doc : DocInput)
  (w : Window) :
  truthy (in_id doc) = None ->
  (forall items, w <> Storage items) ->
  let w' := snd (saveDocument js clock doc w) in
  fst (saveDocument js clock doc w) = Ok (new_document clock doc)
  /\ w' = w
  /\ getDocuments js w' = Ok []
  /\ getDocument js ("doc_" ++ pretty (nowMs clock)) w' = None.
Proof.
  intros Hid Hw. unfold saveDocument. rewrite Hid.
  fold (new_document clock doc). cbn [fst snd].
  assert (Hset : forall v, safe_setItem w DOCUMENTS_KEY v = w).
  { intros v. destruct w as [|m|items]; try reflexivity.
    destruct (Hw items eq_refl). }
  assert (Hget : getDocuments js w = Ok []).
  { rewrite getDocuments_cases. destruct w as [|m|items]; try reflexivity.
    destruct (Hw items eq_refl). }
  rewrite Hset. repeat split; [exact Hget|].
  unfold getDocument, docs_of. now rewrite Hget.
Qed.

(** X9. A store whose text is not valid JSON is not repaired but
    replaced: the next save of a new document writes an array that holds
    that document alone, and the next delete writes the empty array.
    What the store held is gone either way. *)
Theorem broken_store_is_overwritten (clock : Clock) (doc : DocInput)
  (items : gmap string string) (docsJson message id : string) :
  items !! DOCUMENTS_KEY = Some docsJson ->
  JSON_parse js docsJson = Throw message ->
  truthy (in_id doc) = None ->
  snd (saveDocument js clock doc (Storage items))
  = Storage (<[DOCUMENTS_KEY :=
                 JSON_stringify js (JArray [new_document clock doc])]> items)
  /\ deleteDocument js id (Storage items)
     = (Ok tt,
        Storage (<[DOCUMENTS_KEY := JSON_stringify js (JArray [])]> items)).
Proof.
  intros Hitem Hparse Hid.
  assert (Hdocs : docs_of js (Storage items) = []).
  { unfold docs_of. rewrite getDocuments_cases.
    unfold safe_getItem. simpl. rewrite Hitem, Hparse.
    now destruct (is_empty docsJson). }
  split.
  - unfold saveDocument. rewrite Hid, Hdocs. reflexivity.
  - unfold deleteDocument. rewrite Hdocs. reflexivity.
Qed.

End StoreFacts.

Section StoreWitnesses.
Import DocumentService.

Lemma deleteDocument_removes_witness :
  let js := replay_runtime (JArray [stored_a; stored_b]) (JArray [stored_b]) in
  let w := Storage {[ DOCUMENTS_KEY := "before" ]} in
  fst (deleteDocument js "doc_1" w) = Ok tt
  /\ getDocuments js (snd (deleteDocument js "doc_1" w)) = Ok [stored_b]
  /\ getDocument js "doc_1" (snd (deleteDocument js "doc_1" w)) = None
  /\ (forall id', "doc_1" <> id' ->
        getDocument js id' (snd (deleteDocument js "doc_1" w))
        = getDocument js id' w).
Proof.
  exact (deleteDocument_removes
           (replay_runtime (JArray [stored_a; stored_b]) (JArray [stored_b]))
           "doc_1" {[ DOCUMENTS_KEY := "before" ]}
           eq_refl (conj eq_refl eq_refl)).
Defined.

Lemma saveDocument_appends_new_witness :
  let doc := {| in_id := None; in_title := "C"; in_content := "gamma" |} in
  let newDoc := new_document example_clock doc in
  let js := replay_runtime (JArray [stored_a]) (JArray [stored_a; newDoc]) in
  let w := Storage {[ DOCUMENTS_KEY := "before" ]} in
  fst (saveDocument js example_clock doc w) = Ok newDoc
  /\ getDocuments js (snd (saveDocument js example_clock doc w))
     = Ok [stored_a; newDoc]
  /\ string_field "id" newDoc = Some "doc_1704067200000"
  /\ string_field "title" newDoc = Some "C"
  /\ string_field "content" newDoc = Some "gamma"
  /\ string_field "createdAt" newDoc = Some "2024-01-01T00:00:00.000Z"
  /\ string_field "updatedAt" newDoc = Some "2024-01-01T00:00:00.000Z".
Proof.
  exact (saveDocument_appends_new
           (replay_runtime (JArray [stored_a])
              (JArray [stored_a;
                       new_document example_clock
                         {| in_id := None; in_title := "C"; in_content := "gamma" |}]))
           example_clock
           {| in_id := None; in_title := "C"; in_content := "gamma" |}
           {[ DOCUMENTS_KEY := "before" ]}
           eq_refl (conj eq_refl eq_refl)).
Defined.

Lemma saveDocument_updates_in_place_witness :
  let doc := {| in_id := Some "doc_2"; in_title := "B2"; in_content := "beta2" |} in
  let updated := updated_document example_clock stored_b doc in
  let js := replay_runtime (JArray [stored_a; stored_b])
              (JArray [stored_a; updated]) in
  let w := Storage {[ DOCUMENTS_KEY := "before" ]} in
  has_id "doc_2" stored_b = true
  /\ (forall j d, j < 1 -> docs_of js w !! j = Some d -> has_id "doc_2" d = false)
  /\ fst (saveDocument js example_clock doc w) = Ok updated
  /\ getDocuments js (snd (saveDocument js example_clock doc w))
     = Ok [stored_a; updated]
  /\ string_field "title" updated = Some "B2"
  /\ string_field "content" updated = Some "beta2"
  /\ string_field "updatedAt" updated = Some "2024-01-01T00:00:00.000Z"
  /\ (forall k, k <> "id" -> k <> "title" -> k <> "content" ->
                k <> "updatedAt" ->
                obj_get k (own_fields updated) = obj_get k (own_fields stored_b)).
Proof.
  exact (saveDocument_updates_in_place
           (replay_runtime (JArray [stored_a; stored_b])
              (JArray [stored_a;
                       updated_document example_clock stored_b
                         {| in_id := Some "doc_2"; in_title := "B2";
                            in_content := "beta2" |}]))
           example_clock
           {| in_id := Some "doc_2"; in_title := "B2"; in_content := "beta2" |}
           {[ DOCUMENTS_KEY := "before" ]} "doc_2" 1 stored_b
           eq_refl eq_refl eq_refl eq_refl (conj eq_refl eq_refl)).
Defined.

Lemma saveDocument_without_storage_witness :
  let doc := {| in_id := None; in_title := "C"; in_content := "gamma" |} in
  fst (saveDocument example_runtime example_clock doc NoWindow)
  = Ok (new_document example_clock doc)
  /\ snd (saveDocument example_runtime example_clock doc NoWindow) = NoWindow
  /\ getDocuments example_runtime
       (snd (saveDocument example_runtime example_clock doc NoWindow)) = Ok []
  /\ getDocument example_runtime ("doc_" ++ pretty (nowMs example_clock))
       (snd (saveDocument example_runtime example_clock doc NoWindow)) = None.
Proof.
  apply (saveDocument_without_storage example_runtime example_clock
           {| in_id := None; in_title := "C"; in_content := "gamma" |} NoWindow).
  - reflexivity.
  - discriminate.
Defined.

Lemma broken_store_is_overwritten_witness :
  let doc := {| in_id := None; in_title := "C"; in_content := "gamma" |} in
  snd (saveDocument example_runtime example_clock doc
         (Storage {[ DOCUMENTS_KEY := "{oops" ]}))
  = Storage (<[DOCUMENTS_KEY :=
                 JSON_stringify example_runtime
                   (JArray [new_document example_clock doc])]>
               {[ DOCUMENTS_KEY := "{oops" ]})
  /\ deleteDocument example_runtime "doc_1"
       (Storage {[ DOCUMENTS_KEY := "{oops" ]})
     = (Ok tt,
        Storage (<[DOCUMENTS_KEY := JSON_stringify example_runtime (JArray [])]>
                   {[ DOCUMENTS_KEY := "{oops" ]})).
Proof.
  exact (broken_store_is_overwritten example_runtime example_clock
           {| in_id := None; in_title := "C"; in_content := "gamma" |}
           {[ DOCUMENTS_KEY := "{oops" ]} "{oops" "Unexpected token in JSON"
           "doc_1" eq_refl eq_refl eq_refl).
Defined.

End StoreWitnesses.

(** ** The compile endpoint: its files *)

Section ScratchFileFacts.
Import Http Base64 CompileRoute.

Lemma run_tool_other tempFile run d path :
  ~ In path (map (fun ext_data => replace_ext ".tex" (fst ext_data) tempFile)
               (written run)) ->
  files (run_tool tempFile run d) !! path = files d !! path.
Proof.
  unfold run_tool. simpl. generalize (files d). clear d.
  induction (written run) as [|[ext data] l IH]; intros fs H; [reflexivity|].
  simpl in H |- *. rewrite IH by tauto.
  apply lookup_insert_ne. tauto.
Qed.

Lemma fold_insert_keeps (tempFile path : string) (l : list (string * string))
  (fs : gmap string string) :
  is_Some (fs !! path) ->
  is_Some (fold_left
             (fun (fs : gmap string string) (ext_data : string * string) =>
                <[replace_ext ".tex" (fst ext_data) tempFile := snd ext_data]> fs)
             l fs !! path).
Proof.
  revert fs; induction l as [|[ext data] l IH]; intros fs H; [exact H|].
  simpl. apply IH.
  destruct (decide (replace_ext ".tex" ext tempFile = path)) as [->|Hne].
  - rewrite lookup_insert_eq. eauto.
  - now rewrite lookup_insert_ne.
Qed.

Lemma run_tool_written tempFile run d ext data :
  In (ext, data) (written run) ->
  is_Some (files (run_tool tempFile run d) !! replace_ext ".tex" ext tempFile).
Proof.
  intros Hin. unfold run_tool. simpl. generalize (files d). clear d.
  induction (written run) as [|[ext' data'] l IH]; intros fs; [contradiction|].
  simpl. destruct Hin as [Heq|Hin].
  - inversion Heq; subst. apply fold_insert_keeps.
    rewrite lookup_insert_eq. eauto.
  - now apply IH.
Qed.

(** The files of the disk after [POST], for a request that is compiled. *)
Lemma POST_files tempDir nowMs run source d :
  is_empty source = false ->
  let after_run := files (spawn_pdflatex tempDir (tempFile_of tempDir nowMs) run
                            (writeFile (tempFile_of tempDir nowMs) source d)) in
  files (snd (POST tempDir nowMs run (Body (Some source)) d))
  = if (exit_code run =? 0)%Z then
      match compiled_pdf tempDir nowMs run source d with
      | Some _ =>
          delete (replace_ext ".pdf" ".aux" (outputFile_of tempDir nowMs))
            (delete (replace_ext ".pdf" ".log" (outputFile_of tempDir nowMs))
               (delete (outputFile_of tempDir nowMs)
                  (delete (tempFile_of tempDir nowMs) after_run)))
      | None => after_run
      end
    else after_run.
Proof.
  intros Hs after_run. unfold POST, truthy. rewrite Hs.
  fold (tempFile_of tempDir nowMs). fold (outputFile_of tempDir nowMs).
  unfold on_close, compiled_pdf.
  destruct (exit_code run =? 0)%Z; simpl negb; cbv iota; [|reflexivity].
  unfold readFile. fold after_run.
  destruct (after_run !! outputFile_of tempDir nowMs); reflexivity.
Qed.

(** X11. The handler touches no file but its own: whatever the request
    and whatever the process does, a path that is neither one of the
    four paths of the request nor written by the process holds after the
    call what it held before. *)
Theorem POST_leaves_other_files (tempDir : string) (nowMs : Z) (run : ToolRun)
  (request : Request) (d : Disk) (path : string) :
  ~ In path (unlinked_paths tempDir nowMs) ->
  ~ In path (written_paths tempDir nowMs run) ->
  files (snd (POST tempDir nowMs run request d)) !! path = files d !! path.
Proof.
  intros Hu Hw. destruct request as [message | [source|]]; try reflexivity.
  destruct (is_empty source) eqn:Hs.
  { unfold POST, truthy. now rewrite Hs. }
  rewrite (POST_files _ _ _ _ _ Hs).
  assert (Hrun : files (spawn_pdflatex tempDir (tempFile_of tempDir nowMs) run
                          (writeFile (tempFile_of tempDir nowMs) source d))
                 !! path = files d !! path).
  { unfold spawn_pdflatex. rewrite run_tool_other by exact Hw.
    simpl. apply lookup_insert_ne. intros E. apply Hu. left. exact E. }
  unfold unlinked_paths in Hu. simpl in Hu.
  destruct (exit_code run =? 0)%Z; [|exact Hrun].
  destruct (compiled_pdf tempDir nowMs run source d); [|exact Hrun].
  rewrite !lookup_delete_ne by tauto. exact Hrun.
Qed.

Lemma POST_leaves_other_files_witness :
  files (snd (POST "/tmp" 17
                {| exit_code := 0; errorOutput := ""; output := "";
                   written := [(".log", "l"); (".pdf", "%PDF")] |}
                (Body (Some "x"))
                {| files := {[ "/tmp/notes.txt" := "keep" ]}; trace := [] |}))
  !! "/tmp/notes.txt"
  = files {| files := {[ "/tmp/notes.txt" := "keep" ]}; trace := [] |}
    !! "/tmp/notes.txt".
Proof.
  apply (POST_leaves_other_files "/tmp" 17
           {| exit_code := 0; errorOutput := ""; output := "";
              written := [(".log", "l"); (".pdf", "%PDF")] |}
           (Body (Some "x"))
           {| files := {[ "/tmp/notes.txt" := "keep" ]}; trace := [] |}
           "/tmp/notes.txt").
  - vm_compute. intros [H|[H|[H|[H|[]]]]]; discriminate.
  - vm_compute. intros [H|[H|[]]]; discriminate.
Defined.

(** X12. The clean-up of the success path covers four paths only.  A
    file the process writes under another extension (as [.out] or
    [.toc]) is still in the temporary directory after a successful
    compile. *)
Theorem POST_success_keeps_other_outputs (tempDir : string) (nowMs : Z)
  (run : ToolRun) (source : string) (d : Disk) (bytes ext data : string) :
  is_empty source = false ->
  exit_code run = 0%Z ->
  compiled_pdf tempDir nowMs run source d = Some bytes ->
  In (ext, data) (written run) ->
  ~ In (replace_ext ".tex" ext (tempFile_of tempDir nowMs))
      (unlinked_paths tempDir nowMs) ->
  fst (POST tempDir nowMs run (Body (Some source)) d)
  = {| status := 200; body := success_body bytes |}
  /\ is_Some (files (snd (POST tempDir nowMs run (Body (Some source)) d))
              !! replace_ext ".tex" ext (tempFile_of tempDir nowMs)).
Proof.
  intros Hs Hc Hpdf Hin Hu. split.
  - rewrite (POST_compile_cases _ _ _ _ _ Hs), Hc, Hpdf. reflexivity.
  - rewrite (POST_files _ _ _ _ _ Hs), Hc, Hpdf.
    change (0 =? 0)%Z with true. cbv iota.
    unfold unlinked_paths in Hu. simpl in Hu.
    rewrite !lookup_delete_ne by tauto.
    unfold spawn_pdflatex. now apply (run_tool_written _ _ _ ext data).
Qed.

Lemma POST_success_keeps_other_outputs_witness :
  let run := {| exit_code := 0; errorOutput := ""; output := "";
                written := [(".log", "l"); (".toc", "contents"); (".pdf", "%PDF")] |} in
  fst (POST "/tmp" 17 run (Body (Some "x")) {| files := ∅; trace := [] |})
  = {| status := 200; body := success_body "%PDF" |}
  /\ is_Some (files (snd (POST "/tmp" 17 run (Body (Some "x"))
                            {| files := ∅; trace := [] |}))
              !! replace_ext ".tex" ".toc" (tempFile_of "/tmp" 17)).
Proof.
  apply (POST_success_keeps_other_outputs "/tmp" 17
           {| exit_code := 0; errorOutput := ""; output := "";
              written := [(".log", "l"); (".toc", "contents"); (".pdf", "%PDF")] |}
           "x" {| files := ∅; trace := [] |} "%PDF" ".toc" "contents").
  - reflexivity.
  - reflexivity.
  - vm_compute. reflexivity.
  - right; left. reflexivity.
  - vm_compute. intros [H|[H|[H|[H|[]]]]]; discriminate.
Defined.

End ScratchFileFacts.

(** ** From the endpoint to the preview *)

Section EndToEndFacts.
Import Http Base64 CompileRoute.
Context (js : Runtime).

(** X13. A successful compile reaches the preview unchanged.  When the
    process ends with exit code 0 and its PDF is on disk, and [atob]
    decodes what the handler encoded, then the answer of the handler,
    given to either editor, publishes exactly the bytes of that PDF. *)
Theorem compiled_pdf_is_shown (tempDir : string) (nowMs : Z) (run : ToolRun)
  (source bytes : string) (d : Disk)
  (w : PdfEditor.World) (w2 : DocumentEditor.World) :
  is_empty source = false ->
  exit_code run = 0%Z ->
  compiled_pdf tempDir nowMs run source d = Some bytes ->
  atob js (base64_encode bytes) = Ok bytes ->
  let outcome := fetch_outcome (fst (POST tempDir nowMs run (Body (Some source)) d)) in
  PdfEditor.shown_pdf (PdfEditor.compileLatex_settle js outcome w) = Some bytes
  /\ DocumentEditor.shown_pdf (DocumentEditor.compile_settle js outcome w2)
     = Some bytes.
Proof.
  intros Hs Hc Hpdf Hatob outcome. subst outcome.
  rewrite (POST_compile_cases _ _ _ _ _ Hs), Hc, Hpdf.
  change (0 =? 0)%Z with true. cbv iota.
  split.
  - apply pdf_settle_success. simpl. exact Hatob.
  - apply doc_settle_success. simpl. exact Hatob.
Qed.

(** X14. A failed compile, as each editor reports it.  When the process
    exits with another code than 0, the stand-alone editor shows the
    message of the handler, which carries what the process printed on
    its error stream (or on its output when that stream is empty); the
    document editor shows its own fixed message and drops the
    diagnostic.  And no request of the stand-alone editor, which sends
    only text that is not blank, is ever answered with status 400. *)
Theorem compile_failure_is_reported (tempDir : string) (nowMs : Z)
  (run : ToolRun) (source : string) (d : Disk)
  (w : PdfEditor.World) (w2 : DocumentEditor.World) :
  PdfEditor.is_blank source = false ->
  exit_code run <> 0%Z ->
  let response := fst (POST tempDir nowMs run (Body (Some source)) d) in
  status response = 500%Z
  /\ PdfEditor.error
       (PdfEditor.ui (PdfEditor.compileLatex_settle js (fetch_outcome response) w))
     = Some ("LaTeX compilation failed: "
             ++ or_string (errorOutput run) (output run))
  /\ DocumentEditor.error
       (DocumentEditor.ui
          (DocumentEditor.compile_settle js (fetch_outcome response) w2))
     = Some "Failed to compile LaTeX. Please check your syntax."
  /\ (forall run' d',
        status (fst (POST tempDir nowMs run' (Body (Some source)) d')) <> 400%Z).
Proof.
  intros Hb Hc response.
  assert (Hs : is_empty source = false) by (now destruct source).
  assert (Hresp : response
                  = {| status := 500;
                       body := error_body ("LaTeX compilation failed: "
                                 ++ or_string (errorOutput run) (output run)) |}).
  { subst response. rewrite (POST_compile_cases _ _ _ _ _ Hs).
    apply Z.eqb_neq in Hc. now rewrite Hc. }
  rewrite Hresp. split; [reflexivity|]. split; [|split].
  - reflexivity.
  - reflexivity.
  - intros run' d'. rewrite (POST_compile_cases _ _ _ _ _ Hs).
    destruct (exit_code run' =? 0)%Z; [|discriminate].
    destruct (compiled_pdf tempDir nowMs run' source d'); discriminate.
Qed.

End EndToEndFacts.

Section EndToEndWitnesses.
Import Http Base64 CompileRoute.

Lemma compiled_pdf_is_shown_witness :
  let run := {| exit_code := 0; errorOutput := ""; output := "";
                written := [(".log", "l"); (".pdf", "%PDF-1.5")] |} in
  let outcome := fetch_outcome
                   (fst (POST "/tmp" 17 run (Body (Some "x"))
                           {| files := ∅; trace := [] |})) in
  PdfEditor.shown_pdf
    (PdfEditor.compileLatex_settle example_runtime outcome PdfEditor.initial)
  = Some "%PDF-1.5"
  /\ DocumentEditor.shown_pdf
       (DocumentEditor.compile_settle example_runtime outcome (example_editor None))
     = Some "%PDF-1.5".
Proof.
  exact (compiled_pdf_is_shown example_runtime "/tmp" 17
           {| exit_code := 0; errorOutput := ""; output := "";
              written := [(".log", "l"); (".pdf", "%PDF-1.5")] |}
           "x" "%PDF-1.5" {| files := ∅; trace := [] |}
           PdfEditor.initial (example_editor None)
           eq_refl eq_refl eq_refl eq_refl).
Defined.

Lemma compile_failure_is_reported_witness :
  let run := {| exit_code := 1; errorOutput := "";
                output := "! Undefined control sequence."; written := [] |} in
  let response := fst (POST "/tmp" 17 run (Body (Some "\undefined"))
                         {| files := ∅; trace := [] |}) in
  status response = 500%Z
  /\ PdfEditor.error
       (PdfEditor.ui (PdfEditor.compileLatex_settle example_runtime
                        (fetch_outcome response) PdfEditor.initial))
     = Some "LaTeX compilation failed: ! Undefined control sequence."
  /\ DocumentEditor.error
       (DocumentEditor.ui
          (DocumentEditor.compile_settle example_runtime
             (fetch_outcome response) (example_editor None)))
     = Some "Failed to compile LaTeX. Please check your syntax."
  /\ (forall run' d',
        status (fst (POST "/tmp" 17 run' (Body (Some "\undefined")) d')) <> 400%Z).
Proof.
  apply (compile_failure_is_reported example_runtime "/tmp" 17
           {| exit_code := 1; errorOutput := "";
              output := "! Undefined control sequence."; written := [] |}
           "\undefined" {| files := ∅; trace := [] |}
           PdfEditor.initial (example_editor None)).
  - reflexivity.
  - discriminate.
Defined.

End EndToEndWitnesses.

(** ** The debounce of the stand-alone editor *)

Section DebounceFacts.
Import PdfEditor.

Lemma cleared_is_empty (s : Session) :
  (forall id code, pending s !! id = Some code -> compileTimeout s = Some id) ->
  pending (clear_compileTimeout s) = ∅.
Proof.
  intros H. apply map_eq. intros id. rewrite lookup_empty.
  unfold clear_compileTimeout. simpl.
  destruct (compileTimeout s) as [t|] eqn:Et.
  - destruct (decide (id = t)) as [->|Hne]; [apply lookup_delete_eq|].
    rewrite lookup_delete_ne by congruence.
    destruct (pending s !! id) as [code|] eqn:E; [|reflexivity].
    specialize (H _ _ E). congruence.
  - destruct (pending s !! id) as [code|] eqn:E; [|reflexivity].
    specialize (H _ _ E). discriminate.
Qed.

Lemma debounce_effect_debounced (s : Session) :
  (forall id code, pending s !! id = Some code -> compileTimeout s = Some id) ->
  debounced (debounce_effect s).
Proof.
  intros H id code. unfold debounce_effect.
  cbn [pending compileTimeout latexCode].
  rewrite (cleared_is_empty s H).
  destruct (decide (id = nextTimer (clear_compileTimeout s))) as [->|Hne].
  - rewrite lookup_insert_eq. intros E; inversion E; subst. auto.
  - rewrite lookup_insert_ne by congruence. rewrite lookup_empty. discriminate.
Qed.

Lemma react_debounced (i : Input) (s : Session) :
  debounced s -> debounced (react i s).
Proof.
  intros H. destruct i as [code|id]; simpl.
  - unfold setLatexCode. destruct (String.eqb code (latexCode s)); [exact H|].
    apply debounce_effect_debounced. intros id c.
    unfold clear_compileTimeout. cbn [pending compileTimeout].
    destruct (compileTimeout s) as [t|] eqn:Et.
    + destruct (decide (id = t)) as [->|Hne].
      * now rewrite lookup_delete_eq.
      * rewrite lookup_delete_ne by congruence. intros E.
        destruct (H _ _ E) as [E' _]. congruence.
    + intros E. destruct (H _ _ E) as [E' _]. rewrite Et in E'. discriminate.
  - unfold timer_fires. destruct (pending s !! id) as [code|] eqn:E; [|exact H].
    intros id' c. cbn [pending compileTimeout latexCode].
    destruct (decide (id' = id)) as [->|Hne].
    + now rewrite lookup_delete_eq.
    + rewrite lookup_delete_ne by congruence. apply H.
Qed.

Lemma session_run_debounced (inputs : list Input) (s : Session) :
  debounced s -> debounced (session_run inputs s).
Proof.
  revert s; induction inputs as [|i inputs IH]; intros s H; [exact H|].
  simpl. apply IH. now apply react_debounced.
Qed.

Lemma typing_sends_nothing (codes : list string) (s : Session) :
  world (session_run (map Types codes) s) = world s.
Proof.
  revert s; induction codes as [|c codes IH]; intros s; [reflexivity|].
  simpl. rewrite IH. unfold setLatexCode.
  now destruct (String.eqb c (latexCode s)).
Qed.

(** X15. The debounce of the stand-alone editor.  From the first render
    on, whatever is typed and whichever timers fire, at most one
    callback is pending, the one [compileTimeout] names, and it holds
    the current text.  Typing alone sends nothing; when the pending
    timer fires, [compileLatex] runs once, on the current text, and no
    callback is left. *)
Theorem debounce_compiles_latest (code : string) (inputs : list Input) :
  let s := session_run inputs (mount code) in
  debounced s
  /\ (forall codes, world (session_run (map Types codes) s) = world s)
  /\ (forall id captured,
        pending s !! id = Some captured ->
        world (timer_fires id s) = compileLatex_begin (latexCode s) (world s)
        /\ pending (timer_fires id s) = ∅)
  /\ (forall id, pending s !! id = None -> timer_fires id s = s).
Proof.
  intros s.
  assert (Hd : debounced s).
  { apply session_run_debounced. apply debounce_effect_debounced.
    intros id c. simpl. rewrite lookup_empty. discriminate. }
  split; [exact Hd|].
  split; [intros codes; apply typing_sends_nothing|]. split.
  - intros id captured E. destruct (Hd _ _ E) as [Ht ->].
    unfold timer_fires. rewrite E. cbn [world pending]. split; [reflexivity|].
    apply map_eq. intros id'. rewrite lookup_empty.
    destruct (decide (id' = id)) as [->|Hne]; [apply lookup_delete_eq|].
    rewrite lookup_delete_ne by congruence.
    destruct (pending s !! id') as [c|] eqn:E'; [|reflexivity].
    destruct (Hd _ _ E') as [Ht' _]. congruence.
  - intros id E. unfold timer_fires. now rewrite E.
Qed.

(** A burst of typing after the first render, then the timer: one
    request, for the last text. *)
Example debounce_burst :
  let s := session_run [Types "a"; Types "ab"; Types "abc"; Fires 4]
             (mount "") in
  map_to_list (inflight (world s)) = [(0, "abc")] /\ pending s = ∅.
Proof. vm_compute. split; reflexivity. Qed.

(** X16. The two paths of the stand-alone editor that empty
    [pdfUrlRef] do not revoke the URL it held.  After a failed compile,
    or after the text was blanked, the object URL of the PDF that was
    shown is still allocated, and unmounting the component does not
    release it either. *)
Theorem cleared_ref_leaks_url (js : Runtime) (w : World)
  (outcome : Http.FetchOutcome) (message blank blob : string) :
  shown_pdf w = Some blob ->
  decode_response js outcome = Throw message ->
  is_blank blank = true ->
  ObjectUrl.live (urls (unmount (compileLatex_settle js outcome w)))
    !! pdfUrl (ui w) = Some blob
  /\ ObjectUrl.live (urls (unmount (compileLatex_begin blank w)))
       !! pdfUrl (ui w) = Some blob.
Proof.
  intros Hshown Hd Hb. unfold shown_pdf in Hshown. split.
  - unfold compileLatex_settle. rewrite Hd. exact Hshown.
  - unfold compileLatex_begin. rewrite Hb. exact Hshown.
Qed.

Lemma cleared_ref_leaks_url_witness :
  let good := Http.Responded true {| Http.pdf := Some "QQ=="; Http.error := None |} in
  let bad := Http.Rejected "Failed to fetch" in
  let w := run example_runtime [Compile "good"; Resolve 0 good] initial in
  ObjectUrl.live (urls (unmount (compileLatex_settle example_runtime bad w)))
    !! pdfUrl (ui w) = Some "A"
  /\ ObjectUrl.live (urls (unmount (compileLatex_begin "  " w)))
       !! pdfUrl (ui w) = Some "A".
Proof.
  exact (cleared_ref_leaks_url example_runtime
           (run example_runtime
              [Compile "good";
               Resolve 0 (Http.Responded true
                            {| Http.pdf := Some "QQ=="; Http.error := None |})]
              initial)
           (Http.Rejected "Failed to fetch") "Failed to fetch" "  " "A"
           eq_refl eq_refl eq_refl).
Defined.

End DebounceFacts.

(** ** The resources of the document editor *)

Section TidyFacts.
Import ObjectUrl DocumentEditor.
Context (js : Runtime).

Lemma timers_cleared_empty (w : World) :
  (forall id, is_Some (timers w !! id) -> compileTimeout (ui w) = Some id) ->
  timers_cleared w = ∅.
Proof.
  intros H. apply map_eq. intros id. rewrite lookup_empty.
  unfold timers_cleared.
  destruct (compileTimeout (ui w)) as [t|] eqn:Et.
  - destruct (decide (id = t)) as [->|Hne]; [apply lookup_delete_eq|].
    rewrite lookup_delete_ne by congruence.
    destruct (timers w !! id) as [c|] eqn:E; [|reflexivity].
    assert (Hs : is_Some (timers w !! id)) by (rewrite E; eauto).
    specialize (H _ Hs). congruence.
  - destruct (timers w !! id) as [c|] eqn:E; [|reflexivity].
    assert (Hs : is_Some (timers w !! id)) by (rewrite E; eauto).
    specialize (H _ Hs). discriminate.
Qed.

(** What [compileLatex] changes besides the store and the flags. *)
Lemma compileLatex_resources (clock : DocumentService.Clock) (w : World) :
  let w' := compileLatex js clock w in
  urls w' = urls w
  /\ pdfUrl (ui w') = pdfUrl (ui w)
  /\ pdfUrlRef (ui w') = pdfUrlRef (ui w)
  /\ (w' = w
      \/ (timers w' = timers_cleared w
          /\ compileTimeout (ui w') = compileTimeout (ui w))
      \/ (timers w' = <[nextTimer w := content (ui w)]> (timers_cleared w)
          /\ compileTimeout (ui w') = Some (nextTimer w))).
Proof.
  unfold compileLatex.
  destruct (is_empty (content (ui w))) eqn:Hc; [cbv zeta; auto|].
  unfold saveCurrentDocument, timers_cleared.
  destruct (compileTimeout (ui w)) as [t|] eqn:Et.
  all: simpl; rewrite Et; simpl; rewrite Hc.
  all: change (docToSave _) with (docToSave (ui w)).
  all: pose proof (saveDocument_content js clock (docToSave (ui w)) (window w))
         as Hcontent.
  all: destruct (DocumentService.saveDocument js clock (docToSave (ui w)) (window w))
         as [[savedDoc|message] win]; simpl in *.
  1,3: rewrite (Hcontent savedDoc eq_refl); simpl; repeat split; right; right;
       split; reflexivity.
  all: repeat split; right; left; split; congruence.
Qed.

Lemma step_tidy (e : Event) (w : World) : tidy w -> tidy (step js e w).
Proof.
  intros (Hurls & Hshown & Htimers). destruct e as [clock|id|seq outcome]; simpl.
  - destruct (compileLatex_resources clock w) as (Hu & Hp & Hr & Hcases).
    unfold tidy. rewrite Hu, Hp, Hr. split; [exact Hurls|]. split; [exact Hshown|].
    destruct Hcases as [-> | [[Ht Hc] | [Ht Hc]]]; [exact Htimers| |].
    + rewrite Ht, (timers_cleared_empty w Htimers). intros id' [c Hc'].
      rewrite lookup_empty in Hc'. discriminate.
    + rewrite Ht, Hc, (timers_cleared_empty w Htimers). intros id' [c Hc'].
      destruct (decide (id' = nextTimer w)) as [->|Hne]; [reflexivity|].
      rewrite lookup_insert_ne in Hc' by congruence.
      rewrite lookup_empty in Hc'. discriminate.
  - unfold timer_fire. destruct (timers w !! id) as [payload|] eqn:E.
    + unfold tidy. simpl. split; [exact Hurls|]. split; [exact Hshown|].
      intros id' Hs. apply Htimers.
      destruct (decide (id' = id)) as [->|Hne].
      * rewrite lookup_delete_eq in Hs. now destruct Hs.
      * now rewrite lookup_delete_ne in Hs by congruence.
    + unfold tidy. auto.
  - destruct (inflight w !! seq); [|unfold tidy; auto].
    unfold compile_settle.
    destruct (decode_response js outcome) as [blob|message].
    + unfold tidy. simpl. split; [|split; [reflexivity | exact Htimers]].
      intros url Hs.
      destruct (decide (url = "blob:" ++ pretty (minted
                  (revoke_if_set (pdfUrlRef (ui w)) (urls w))))) as [->|Hne].
      * split; reflexivity.
      * simpl in Hne. rewrite lookup_insert_ne in Hs by congruence.
        exfalso. unfold revoke_if_set in Hs.
        destruct (is_empty (pdfUrlRef (ui w))) eqn:Hr.
        -- destruct (Hurls _ Hs) as [-> Hne']. congruence.
        -- simpl in Hs.
           destruct (decide (url = pdfUrlRef (ui w))) as [->|Hne'].
           ++ rewrite lookup_delete_eq in Hs. now destruct Hs.
           ++ rewrite lookup_delete_ne in Hs by congruence.
              destruct (Hurls _ Hs) as [-> _]. congruence.
    + unfold tidy. simpl. auto.
Qed.

Lemma run_tidy (events : list Event) (w : World) :
  tidy w -> tidy (run js events w).
Proof.
  revert w; induction events as [|e events IH]; intros w H; [exact H|].
  simpl. apply IH. now apply step_tidy.
Qed.

(** X17. The document editor does not leak.  Starting without object
    URLs and timers, after any sequence of compile calls, timer firings
    and answers, in any order: at most one object URL is allocated, the
    one in [pdfUrlRef], which is the one shown; at most one compile
    timer is pending, the one in [compileTimeout]; and unmounting then
    leaves no object URL allocated and no timer pending. *)
Theorem document_editor_keeps_one_url (events : list Event) (w : World) :
  live (urls w) = ∅ -> timers w = ∅ ->
  pdfUrl (ui w) = pdfUrlRef (ui w) ->
  let w' := run js events w in
  tidy w'
  /\ live (urls (unmount w')) = ∅
  /\ timers (unmount w') = ∅.
Proof.
  intros Hl Ht Hp w'.
  assert (Htidy : tidy w').
  { apply run_tidy. unfold tidy. rewrite Hl, Ht. split; [|split; [exact Hp|]].
    - intros url [b Hb]. rewrite lookup_empty in Hb. discriminate.
    - intros id [c Hc]. rewrite lookup_empty in Hc. discriminate. }
  split; [exact Htidy|]. destruct Htidy as (Hurls & _ & Htimers).
  split.
  - apply map_eq. intros url. rewrite lookup_empty.
    unfold unmount, revoke_if_set. simpl.
    destruct (is_empty (pdfUrlRef (ui w'))) eqn:Hr.
    + destruct (live (urls w') !! url) as [b|] eqn:E; [|reflexivity].
      assert (Hs : is_Some (live (urls w') !! url)) by (rewrite E; eauto).
      destruct (Hurls _ Hs) as [-> Hne]. congruence.
    + simpl. destruct (decide (url = pdfUrlRef (ui w'))) as [->|Hne].
      * apply lookup_delete_eq.
      * rewrite lookup_delete_ne by congruence.
        destruct (live (urls w') !! url) as [b|] eqn:E; [|reflexivity].
        assert (Hs : is_Some (live (urls w') !! url)) by (rewrite E; eauto).
        destruct (Hurls _ Hs) as [-> _]. congruence.
  - unfold unmount. simpl. now apply timers_cleared_empty.
Qed.

End TidyFacts.

Section TidyWitnesses.
Import ObjectUrl DocumentEditor.

Lemma document_editor_keeps_one_url_witness :
  let good := Http.Responded true {| Http.pdf := Some "QQ=="; Http.error := None |} in
  let w' := run example_runtime
              [CompileLatex example_clock; TimerFires 1; Resolve 0 good;
               CompileLatex example_clock; TimerFires 2; Resolve 1 good]
              (example_editor None) in
  tidy w' /\ live (urls (unmount w')) = ∅ /\ timers (unmount w') = ∅.
Proof.
  exact (document_editor_keeps_one_url example_runtime
           [CompileLatex example_clock; TimerFires 1;
            Resolve 0 (Http.Responded true
                         {| Http.pdf := Some "QQ=="; Http.error := None |});
            CompileLatex example_clock; TimerFires 2;
            Resolve 1 (Http.Responded true
                         {| Http.pdf := Some "QQ=="; Http.error := None |})]
           (example_editor None) eq_refl eq_refl eq_refl).
Defined.

End TidyWitnesses.

(** ** The document editor without storage *)

Section OfflineFacts.
Import DocumentService DocumentEditor.
Context (js : Runtime).

Lemma docs_of_without_storage (w : Window) :
  (forall items, w <> Storage items) -> docs_of js w = [].
Proof.
  intros Hw. unfold docs_of. rewrite getDocuments_cases.
  destruct w as [|m|items]; try reflexivity. destruct (Hw items eq_refl).
Qed.

Lemma safe_setItem_without_storage (w : Window) key value :
  (forall items, w <> Storage items) -> safe_setItem w key value = w.
Proof.
  intros Hw. destruct w as [|m|items]; try reflexivity.
  destruct (Hw items eq_refl).
Qed.

(** X18. Without a usable [localStorage] the document editor compiles
    once and never again.  The first [compileLatex] of a document that
    has no id yet saves it (nothing is stored), sets the timer of the
    compile and keeps the id that the save made up; from then on the
    document has an id that the store does not hold, so every further
    [compileLatex] fails in its save: the error is set, no timer is set,
    and the document keeps that id. *)
Theorem compile_locks_without_storage (clock : Clock) (w : World) :
  (forall items, window w <> Storage items) ->
  is_empty (content (ui w)) = false ->
  let w' := compileLatex js clock w in
  window w' = window w
  /\ match truthy (document_id (ui w)) with
     | None =>
         timers w' !! nextTimer w = Some (content (ui w))
         /\ compileTimeout (ui w') = Some (nextTimer w)
         /\ truthy (document_id (ui w'))
            = Some ("doc_" ++ pretty (nowMs clock))
     | Some id =>
         error (ui w') = Some "Failed to save document"
         /\ isCompiling (ui w') = false
         /\ timers w' = timers_cleared w
         /\ document_id (ui w') = document_id (ui w)
     end.
Proof.
  intros Hw Hc w'. subst w'. unfold compileLatex. rewrite Hc.
  unfold saveCurrentDocument, timers_cleared.
  assert (Hsave : DocumentService.saveDocument js clock (docToSave (ui w)) (window w)
                  = match truthy (document_id (ui w)) with
                    | Some id => (Throw "Document not found", window w)
                    | None => (Ok (new_document clock (docToSave (ui w))), window w)
                    end).
  { unfold saveDocument. rewrite (docs_of_without_storage _ Hw).
    change (in_id (docToSave (ui w))) with (document_id (ui w)).
    destruct (truthy (document_id (ui w))); [reflexivity|].
    now rewrite (safe_setItem_without_storage _ _ _ Hw). }
  destruct (compileTimeout (ui w)) as [t|] eqn:Et.
  all: simpl; rewrite Et; simpl; rewrite Hc.
  all: change (docToSave _) with (docToSave (ui w)).
  all: rewrite Hsave.
  all: destruct (truthy (document_id (ui w))) as [id|] eqn:Hid; simpl.
  all: try (repeat split; reflexivity).
  all: unfold new_document, string_field; simpl.
  all: rewrite !obj_get_set_ne by reflexivity.
  all: assert (Hcontent : obj_get "content" (input_fields (docToSave (ui w)))
                          = Some (JString (content (ui w))))
         by (unfold input_fields; destruct (in_id (docToSave (ui w))); reflexivity).
  all: rewrite Hcontent; simpl.
  all: rewrite lookup_insert_eq.
  all: unfold document_id; simpl; unfold string_field; simpl.
  all: rewrite !obj_get_set_ne by reflexivity.
  all: rewrite obj_get_set_eq; repeat split; reflexivity.
Qed.

End OfflineFacts.

Section OfflineWitnesses.
Import DocumentService DocumentEditor.

Lemma compile_locks_without_storage_witness :
  let w := offline_editor None in
  let w' := compileLatex example_runtime example_clock w in
  window w' = window w
  /\ timers w' !! 1 = Some "\documentclass{article}"
  /\ compileTimeout (ui w') = Some 1
  /\ truthy (document_id (ui w')) = Some "doc_1704067200000".
Proof.
  exact (compile_locks_without_storage example_runtime example_clock
           (offline_editor None)
           ltac:(discriminate) eq_refl).
Defined.

(** The second compile of that session is refused. *)
Example second_compile_is_refused :
  let w := run example_runtime
             [CompileLatex example_clock; TimerFires 1;
              CompileLatex example_clock; TimerFires 2]
             (offline_editor None) in
  error (ui w) = Some "Failed to save document"
  /\ map_to_list (inflight w) = [(0, "\documentclass{article}")]
  /\ issued w = 1.
Proof. vm_compute. repeat split. Qed.

End OfflineWitnesses.

(** ** The document store: entries that hide documents *)

Section HiddenDocumentFacts.
Import DocumentService.
Context (js : Runtime).

Lemma find_by_id_app_none id pre post :
  no_null pre = true -> find (has_id id) pre = None ->
  find_by_id id (pre ++ post) = find_by_id id post.
Proof.
  induction pre as [|d pre IH]; intros Hn Hf; [reflexivity|].
  apply no_null_cons in Hn as [Hd Hn]. simpl in Hf |- *.
  rewrite (id_is_has_id _ _ Hd). destruct (has_id id d); [discriminate|].
  now apply IH.
Qed.

Lemma filter_out_app_null id pre post :
  no_null pre = true ->
  exists message, filter_out id (pre ++ JNull :: post) = Throw message.
Proof.
  induction pre as [|d pre IH]; intros Hn.
  - simpl. eauto.
  - apply no_null_cons in Hn as [Hd Hn]. destruct (IH Hn) as [m Hm].
    simpl. rewrite (id_is_has_id _ _ Hd), Hm. eauto.
Qed.

(** X19. A [null] entry in the stored array hides what follows it.  When
    no document before the [null] has the id, [getDocument] swallows the
    [TypeError] of its callback and finds nothing, even if a later entry
    has the id; [deleteDocument] throws for every id and leaves the
    store as it was. *)
Theorem null_entry_hides_documents (w : Window) (id id' : string)
  (pre post : list Json) :
  docs_of js w = (pre ++ JNull :: post)%list ->
  no_null pre = true ->
  find (has_id id) pre = None ->
  getDocument js id w = None
  /\ (exists message, fst (deleteDocument js id' w) = Throw message)
  /\ snd (deleteDocument js id' w) = w.
Proof.
  intros Hdocs Hn Hf. unfold getDocument, deleteDocument. rewrite Hdocs.
  rewrite (find_by_id_app_none _ _ _ Hn Hf). simpl.
  destruct (filter_out_app_null id' pre post Hn) as [m Hm]. rewrite Hm.
  simpl. eauto.
Qed.

Lemma find_findIndex id docs index old :
  findIndex id docs = Ok (Some index) -> docs !! index = Some old ->
  find (has_id id) docs = Some old.
Proof.
  revert index; induction docs as [|d docs IH]; intros index Hi Hl; [discriminate|].
  simpl in Hi |- *.
  destruct (id_is id d) as [[|]|] eqn:E0; [| |discriminate];
    apply id_is_ok in E0 as E; rewrite E.
  - inversion Hi; subst. simpl in Hl. congruence.
  - destruct (findIndex id docs) as [[i|]|] eqn:Ei; [|discriminate..].
    inversion Hi; subst. simpl in Hl. now apply (IH i).
Qed.

Lemma find_app_some {A} (f : A -> bool) l1 l2 x :
  find f l1 = Some x -> find f (l1 ++ l2) = Some x.
Proof.
  induction l1 as [|a l1 IH]; [discriminate|]. simpl.
  destruct (f a); [tauto | exact IH].
Qed.

Lemma no_null_app l1 l2 :
  no_null l1 = true -> no_null l2 = true -> no_null (l1 ++ l2) = true.
Proof.
  unfold no_null. intros H1 H2. rewrite forallb_app. now rewrite H1, H2.
Qed.

(** X20. Ids are made of the clock alone, so two documents saved as new
    within one millisecond get the same id.  When the store already
    holds a document with the id that the clock yields, the new document
    is appended under that same id, and [getDocument] with the id just
    returned answers the older document, not the one just saved. *)
Theorem same_millisecond_shares_id (clock : Clock) (doc : DocInput)
  (items : gmap string string) (index : nat) (old : Json) :
  let w := Storage items in
  let id := "doc_" ++ pretty (nowMs clock) in
  let newDoc := new_document clock doc in
  truthy (in_id doc) = None ->
  no_null (docs_of js w) = true ->
  findIndex id (docs_of js w) = Ok (Some index) ->
  docs_of js w !! index = Some old ->
  round_trips js (JArray (docs_of js w ++ [newDoc])) ->
  fst (saveDocument js clock doc w) = Ok newDoc
  /\ has_id id newDoc = true
  /\ has_id id old = true
  /\ getDocument js id (snd (saveDocument js clock doc w)) = Some old.
Proof.
  intros w id newDoc Hid Hn Hidx Hold Hrt. subst w.
  assert (Hnew : has_id id newDoc = true).
  { unfold has_id, newDoc, new_document, string_field. cbn [own_fields].
    rewrite !obj_get_set_ne by reflexivity. rewrite obj_get_set_eq.
    apply String.eqb_refl. }
  destruct (findIndex_first _ _ _ Hidx) as [old' [Hl [Hhas _]]].
  rewrite Hold in Hl. inversion Hl; subst old'.
  unfold saveDocument. rewrite Hid. fold (new_document clock doc). fold newDoc.
  cbn [fst snd]. split; [reflexivity|]. split; [exact Hnew|].
  split; [exact Hhas|].
  unfold getDocument. rewrite (docs_of_stored js items _ Hrt).
  rewrite find_by_id_find.
  - f_equal. apply find_app_some. exact (find_findIndex _ _ _ _ Hidx Hold).
  - apply no_null_app; [exact Hn|]. reflexivity.
Qed.

End HiddenDocumentFacts.

Section HiddenDocumentWitnesses.
Import DocumentService.

Lemma null_entry_hides_documents_witness :
  let js := replay_runtime (JArray [stored_a; JNull; stored_b]) (JArray []) in
  let w := Storage {[ DOCUMENTS_KEY := "before" ]} in
  getDocument js "doc_2" w = None
  /\ (exists message, fst (deleteDocument js "doc_1" w) = Throw message)
  /\ snd (deleteDocument js "doc_1" w) = w.
Proof.
  exact (null_entry_hides_documents
           (replay_runtime (JArray [stored_a; JNull; stored_b]) (JArray []))
           (Storage {[ DOCUMENTS_KEY := "before" ]}) "doc_2" "doc_1"
           [stored_a] [stored_b] eq_refl eq_refl eq_refl).
Defined.

Lemma same_millisecond_shares_id_witness :
  let doc := {| in_id := None; in_title := "C"; in_content := "gamma" |} in
  let first := new_document example_clock
                 {| in_id := None; in_title := "A"; in_content := "alpha" |} in
  let newDoc := new_document example_clock doc in
  let js := replay_runtime (JArray [first]) (JArray [first; newDoc]) in
  let w := Storage {[ DOCUMENTS_KEY := "before" ]} in
  fst (saveDocument js example_clock doc w) = Ok newDoc
  /\ has_id ("doc_" ++ pretty (nowMs example_clock)) newDoc = true
  /\ has_id ("doc_" ++ pretty (nowMs example_clock)) first = true
  /\ getDocument js ("doc_" ++ pretty (nowMs example_clock))
       (snd (saveDocument js example_clock doc w)) = Some first.
Proof.
  exact (same_millisecond_shares_id
           (replay_runtime
              (JArray [new_document example_clock
                         {| in_id := None; in_title := "A"; in_content := "alpha" |}])
              (JArray [new_document example_clock
                         {| in_id := None; in_title := "A"; in_content := "alpha" |};
                       new_document example_clock
                         {| in_id := None; in_title := "C"; in_content := "gamma" |}]))
           example_clock
           {| in_id := None; in_title := "C"; in_content := "gamma" |}
           {[ DOCUMENTS_KEY := "before" ]} 0
           (new_document example_clock
              {| in_id := None; in_title := "A"; in_content := "alpha" |})
           eq_refl eq_refl eq_refl eq_refl (conj eq_refl eq_refl)).
Defined.

End HiddenDocumentWitnesses.

(** ** The segmenter: math is not escaped *)

Section MathFallbackFacts.
Import Segmenter.

#[local] Arguments Ascii.eqb : simpl never.

Lemma span_stop p a c r :
  all_chars p a = true -> p c = false ->
  span p (a ++ String c r) = (a, String c r).
Proof.
  intros Ha Hc. induction a as [|x a IH]; simpl.
  - now rewrite Hc.
  - simpl in Ha. apply andb_true_iff in Ha as [Hx Ha].
    now rewrite Hx, (IH Ha).
Qed.

Lemma first_not_dollar body :
  is_empty body = false -> all_chars not_dollar_nl body = true ->
  exists c rest, body = String c rest /\ Ascii.eqb "$" c = false.
Proof.
  intros Hne Hall. destruct body as [|c rest]; [discriminate|].
  exists c, rest. split; [reflexivity|].
  simpl in Hall. apply andb_true_iff in Hall as [Hc _].
  unfold not_dollar_nl in Hc. apply andb_true_iff in Hc as [Hc _].
  apply negb_true_iff in Hc. unfold dollar in Hc.
  rewrite Ascii.eqb_sym. exact Hc.
Qed.

Lemma match_at_single_dollar body :
  is_empty body = false -> all_chars not_dollar_nl body = true ->
  match_at ("$" ++ body ++ "$") = Some ("$" ++ body ++ "$", "").
Proof.
  intros Hne Hall.
  destruct (first_not_dollar body Hne Hall) as [c [rest [Hb Hc]]].
  assert (H1 : alt_display_dollar ("$" ++ body ++ "$") = None).
  { unfold alt_display_dollar. rewrite Hb. simpl. now rewrite Hc. }
  assert (H4 : alt_inline_dollar ("$" ++ body ++ "$") = Some ("$" ++ body ++ "$", "")).
  { unfold alt_inline_dollar.
    change (strip_prefix "$" ("$" ++ body ++ "$")) with (Some (body ++ "$")).
    cbv beta iota. rewrite (span_stop not_dollar_nl body "$" "" Hall eq_refl).
    rewrite Hne. reflexivity. }
  unfold match_at, or_else. rewrite H1, H4. reflexivity.
Qed.

(** X21. Only text parts are escaped.  When the loaded KaTeX module has
    no [renderToString], a [$..$] formula is put into the preview as it
    stands, between [\(] and [\)] and with its own dollars: whatever its
    body holds, markup included, reaches the HTML unchanged. *)
Theorem math_fallback_is_verbatim (katex : Katex) (body : string) :
  renderToString katex = None ->
  is_empty body = false ->
  all_chars not_dollar_nl body = true ->
  parts ("$" ++ body ++ "$")
  = [{| type := math; content := "$" ++ body ++ "$" |}]
  /\ processLatex (Some katex) ("$" ++ body ++ "$") = "\($" ++ body ++ "$\)".
Proof.
  intros Hk Hne Hall.
  assert (Hparts : parts ("$" ++ body ++ "$")
                   = [{| type := math; content := "$" ++ body ++ "$" |}]).
  { rewrite parts_unfold.
    change ("$" ++ body ++ "$") with (String "$" (body ++ "$")) at 1.
    cbn [exec]. change (String "$" (body ++ "$")) with ("$" ++ body ++ "$").
    rewrite (match_at_single_dollar body Hne Hall). reflexivity. }
  split; [exact Hparts|].
  unfold processLatex. rewrite Hparts. cbn [fold_left].
  unfold render_part. cbn [type content]. rewrite Hk.
  rewrite (mathContent_single_dollar body Hne Hall).
  assert (Hdm : displayMode ("$" ++ body ++ "$") = false).
  { destruct (first_not_dollar body Hne Hall) as [c [rest [Hb Hc]]].
    unfold displayMode, starts_with. rewrite Hb. simpl. now rewrite Hc. }
  rewrite Hdm. string_assoc.
Qed.

Lemma math_fallback_is_verbatim_witness :
  parts ("$" ++ "<b>x</b>" ++ "$")
  = [{| type := math; content := "$" ++ "<b>x</b>" ++ "$" |}]
  /\ processLatex (Some {| renderToString := None |}) ("$" ++ "<b>x</b>" ++ "$")
     = "\($" ++ "<b>x</b>" ++ "$\)".
Proof.
  apply (math_fallback_is_verbatim {| renderToString := None |} "<b>x</b>");
    reflexivity.
Defined.

End MathFallbackFacts.
